(** * Fact matching for category parses (sling/nlp/wikicat/fact_matcher.py)

    A shallow embedding of [FactMatcher] and its [Output] histogram, and the
    properties of the match classifier, the aggregator and the per-category
    cache that the specification states about them. *)

From stdpp Require Import gmap strings list fin_maps.
From Stdlib Require Import ZArith.

(** ** Values of the frame store *)

(** A frame is identified by its handle; the store hands out one frame per
    identifier, so a frame is modelled by its identifier and [kb_get] is
    the indexing [kb["P69"]]. *)
Abbreviation frame := string.

Definition kb_get (name : string) : frame := name.

(** What a slot of the store may hold: a frame reference, a number or a
    string.  Python's [==] on two such objects is equality of this type. *)
Inductive value :=
  | Frame (f : frame)
  | Int (n : Z)
  | Str (s : string).

#[global] Instance value_eq_dec : EqDecision value.
Proof. solve_decision. Defined.

#[global] Instance value_countable : Countable value.
Proof.
  refine (inj_countable'
    (λ v, match v with
          | Frame f => inl f
          | Int n => inr (inl n)
          | Str s => inr (inr s)
          end)
    (λ c, match c with
          | inl f => Frame f
          | inr (inl n) => Int n
          | inr (inr s) => Str s
          end) _).
  by intros [].
Defined.

(** ** Exceptions *)

Inductive exn := AssertionError | IndexError | AttributeError | TypeError.

Inductive result (A : Type) :=
  | Ok (a : A)
  | Raise (e : exn).
Arguments Ok {A} a.
Arguments Raise {A} e.

Definition rbind {A B} (r : result A) (k : A → result B) : result B :=
  match r with
  | Ok a => k a
  | Raise e => Raise e
  end.

Definition rmap {A B} (f : A → B) (r : result A) : result B :=
  rbind r (λ a, Ok (f a)).

#[global] Instance result_ret : MRet result := @Ok.
#[global] Instance result_bind : MBind result := λ A B k r, rbind r k.
#[global] Instance result_fmap : FMap result := @rmap.

(** ** Match types *)

Inductive FactMatchType :=
  | NEW                   (* no fact currently exists for the property *)
  | EXACT                 (* proposed fact exactly matches an existing one *)
  | SUBSUMES_EXISTING     (* proposed fact is coarser than an existing one *)
  | SUBSUMED_BY_EXISTING  (* an existing fact is coarser than the proposed one *)
  | CONFLICT              (* for unique-valued pids, conflicts with existing *)
  | ADDITIONAL.           (* proposed fact would be an extra one *)

#[global] Instance FactMatchType_eq_dec : EqDecision FactMatchType.
Proof. solve_decision. Defined.

Definition FactMatchType_value (t : FactMatchType) : nat :=
  match t with
  | NEW => 0
  | EXACT => 1
  | SUBSUMES_EXISTING => 2
  | SUBSUMED_BY_EXISTING => 3
  | CONFLICT => 4
  | ADDITIONAL => 5
  end.

Definition FactMatchType_of_value (n : nat) : FactMatchType :=
  match n with
  | 0 => NEW
  | 1 => EXACT
  | 2 => SUBSUMES_EXISTING
  | 3 => SUBSUMED_BY_EXISTING
  | 4 => CONFLICT
  | _ => ADDITIONAL
  end.

#[global] Instance FactMatchType_countable : Countable FactMatchType.
Proof.
  refine (inj_countable' FactMatchType_value FactMatchType_of_value _).
  by intros [].
Defined.

(** ** Dates *)

(** Modelled from the spec: the [sling.Date] class is not part of the
    sources at hand.  A temporal value carries a (year, month, day)
    magnitude and a precision level from the ordered set MILLENNIUM,
    CENTURY, DECADE, YEAR, MONTH, DAY, coarsest to finest. *)
Inductive Precision := MILLENNIUM | CENTURY | DECADE | YEAR | MONTH | DAY.

#[global] Instance Precision_eq_dec : EqDecision Precision.
Proof. solve_decision. Defined.

(** The integer behind each precision constant, increasing from the
    coarsest to the finest; [<=] on precisions in the source is the
    comparison of these integers. *)
Definition Precision_value (p : Precision) : Z :=
  match p with
  | MILLENNIUM => 1
  | CENTURY => 2
  | DECADE => 3
  | YEAR => 4
  | MONTH => 5
  | DAY => 6
  end.

Record Date := mkDate {
  year : Z;
  month : Z;
  day : Z;
  precision : Precision;
}.

#[global] Instance Date_eq_dec : EqDecision Date.
Proof. solve_decision. Defined.

(** Returns whether [first] is a finer-precision date than [second]. *)
Definition _finer_date (first second : Date) : bool :=
  if (Precision_value (precision first) <=? Precision_value (precision second))%Z
  then false
  else if decide (precision second = MILLENNIUM)
  then (year first >=? year second)%Z && (year first <? year second + 1000)%Z
  else if decide (precision second = CENTURY)
  then (year first >=? year second)%Z && (year first <? year second + 100)%Z
  else if decide (precision second = DECADE)
  then (year first >=? year second)%Z && (year first <? year second + 10)%Z
  else if decide (precision second = YEAR)
  then (year first =? year second)%Z
  else if decide (precision second = MONTH)
  then (year first =? year second)%Z && (month first =? month second)%Z
  else (* Should not reach here. *) false.

(** ** The knowledge base and the fact extractor *)

(** The part of the frame store that the matcher reads: the slots of a
    frame in order, and [kb.resolve], which follows redirects of a frame. *)
Record KB := {
  slots : frame → list (frame * value);
  resolve : frame → frame;
}.

(** [frame(role)]: all values of the slots of [f] named [role]. *)
Definition slot_values (kb : KB) (f role : frame) : list value :=
  (filter (λ s, s.1 = role) (slots kb f)).*2.

(** [frame[role]] and [frame.role]: the first such value, if any. *)
Definition slot_get (kb : KB) (f role : frame) : option value :=
  head (slot_values kb f role).

(** [sling.FactExtractor]: [facts_for(store, item, [pid], closure)] yields
    fact tuples, each the properties of a path followed by the value it
    leads to; [in_closure(store, property, coarse, fine)] is the
    reachability test along [property].  The local store only holds the
    results and is left out. *)
Record FactExtractor := {
  facts_for : frame → list frame → bool → list (list value);
  in_closure : frame → frame → frame → bool;
}.

Record FactMatcher := {
  kb : KB;
  extractor : FactExtractor;
  unique_properties : gset frame;
  date_properties : gset frame;
  location_properties : gset frame;
  closure_properties : gmap frame frame;
  p_subclass : frame;
  p_parent_org : frame;
}.

(** The argument [prop] of [for_item]: a property or a pid-path. *)
Inductive prop_arg :=
  | Single (p : frame)
  | Path (ps : list frame).

Definition prop_list (prop : prop_arg) : list frame :=
  match prop with
  | Single p => [p]
  | Path ps => ps
  end.

(** *** Construction of the matcher *)

(** One round of the loop over [kb["/w/entity"]("role")]: the three
    property sets after looking at [prop]. *)
Definition is_location_slot (kb : KB) (s : frame * value) : bool :=
  bool_decide (s.1 = kb_get "P1647") &&
  match s.2 with
  | Frame v => bool_decide (resolve kb v = kb_get "P276")
  | _ => false
  end.

Definition is_unique_constraint (kb : KB) (constraint_type : value) : result bool :=
  match constraint_type with
  | Frame c =>
      Ok (bool_decide (c = kb_get "Q19474404")
          || bool_decide (slot_get kb c (kb_get "is") = Some (Frame (kb_get "Q19474404"))))
  | _ => Raise TypeError
  end.

Fixpoint any_unique_constraint (kb : KB) (cs : list value) : result bool :=
  match cs with
  | [] => Ok false
  | c :: cs' =>
      b ← is_unique_constraint kb c;
      b' ← any_unique_constraint kb cs';
      mret (b || b')
  end.

Definition collect_property (kb : KB) (sets : gset frame * gset frame * gset frame)
    (prop : value) : result (gset frame * gset frame * gset frame) :=
  match prop with
  | Frame p =>
      let '(unique, dates, locations) := sets in
      let dates' :=
        if bool_decide (slot_get kb p (kb_get "target") = Some (Frame (kb_get "/w/time")))
        then {[p]} ∪ dates else dates in
      let locations' :=
        if bool_decide (slot_get kb p (kb_get "target") = Some (Frame (kb_get "/w/item")))
           && existsb (is_location_slot kb) (slots kb p)
        then {[p]} ∪ locations else locations in
      u ← any_unique_constraint kb (slot_values kb p (kb_get "P2302"));
      mret (if u : bool then {[p]} ∪ unique else unique, dates', locations')
  | _ => Raise AttributeError
  end.

Fixpoint collect_properties (kb : KB) (sets : gset frame * gset frame * gset frame)
    (props : list value) : result (gset frame * gset frame * gset frame) :=
  match props with
  | [] => Ok sets
  | prop :: props' =>
      sets' ← collect_property kb sets prop;
      collect_properties kb sets' props'
  end.

(** [FactMatcher.__init__] *)
Definition FactMatcher_init (kb : KB) (extractor : FactExtractor) : result FactMatcher :=
  sets ← collect_properties kb (∅, ∅, ∅) (slot_values kb (kb_get "/w/entity") (kb_get "role"));
  let '(unique, dates, locations) := sets in
  (* Set closure properties. *)
  let closure := gset_to_gmap (kb_get "P131") locations in
  (* 'Educated at' -> 'Part of'. *)
  let closure := <[kb_get "P69" := kb_get "P361"]> closure in
  mret {| kb := kb;
          extractor := extractor;
          unique_properties := unique;
          date_properties := dates;
          location_properties := locations;
          closure_properties := closure;
          p_subclass := kb_get "P279";
          p_parent_org := kb_get "P749" |}.

(** ** The match classifier *)

(** Returns whether [prop] is a date-valued property. *)
Definition _date_valued (self : FactMatcher) (prop : frame) : bool :=
  bool_decide (prop ∈ date_properties self).

(** Returns existing targets for the given property for the given item.
    The property could be a pid path. *)
Definition _existing_facts (self : FactMatcher) (item : frame) (prop : list frame)
    (closure : bool) : result (list value) :=
  match prop with
  | [] => Raise IndexError
  | pid :: _ =>
      let facts := facts_for (extractor self) item [pid] closure in
      Ok (omap (λ fact,
                 if bool_decide (removelast fact = Frame <$> prop)
                 then last fact else None) facts)
  end.

(** Returns whether [coarse] subsumes [fine] by following [prop] edges. *)
Definition subsumes (self : FactMatcher) (prop coarse fine : frame) : bool :=
  let coarse := resolve (kb self) coarse in
  let fine := resolve (kb self) fine in
  if bool_decide (coarse = fine) then true
  else
    match closure_properties self !! prop with
    | Some closure_property =>
        in_closure (extractor self) closure_property coarse fine
    | None =>
        in_closure (extractor self) (p_subclass self) coarse fine
        || in_closure (extractor self) (p_parent_org self) coarse fine
    end.

(** [isinstance(existing, sling.Frame)] guarding a test on the frame. *)
Definition if_Frame (existing : value) (test : frame → bool) : bool :=
  match existing with
  | Frame e => test e
  | _ => false
  end.

(** [prop[-1]] and [prop[0]] of a pid-path. *)
Definition terminal_property (prop : list frame) : frame := List.last prop EmptyString.
Definition first_property (prop : list frame) : frame := List.hd EmptyString prop.

Section Classifier.

(** The two operations of [sling.Date] that the matcher calls, neither of
    which is in the sources at hand: the constructor [sling.Date(object)],
    which reads a date off a stored value, and [Date.value()], the
    normalized scalar of a date. *)
Context (sling_Date : value → Date) (Date_value : Date → value).

(** Reports match type for the proposed fact (item, prop, value) against
    any existing fact for the same item and property. *)
Definition for_item (self : FactMatcher) (item : frame) (prop : prop_arg)
    (value : value) : result FactMatchType :=
  match value with
  | Frame v =>
      let prop := prop_list prop in
      (* Compute existing facts without any backoff. *)
      exact_facts ← _existing_facts self item prop false;
      if bool_decide (length exact_facts = 0) then Ok NEW
      else if bool_decide (value ∈ exact_facts) then Ok EXACT
      else
        let terminal := terminal_property prop in
        let proposed_date := sling_Date value in
        let existing_dates := sling_Date <$> exact_facts in
        (* For date-valued properties, existing dates could be int or
           string (which won't match 'value'). *)
        if _date_valued self terminal
           && existsb (λ e, bool_decide (Date_value e = Date_value proposed_date))
                existing_dates
        then Ok EXACT
        (* Check whether the proposed fact subsumes an existing fact. *)
        else if
          (if _date_valued self terminal
           then existsb (λ e, _finer_date e proposed_date) existing_dates
           else existsb (λ existing,
                   if_Frame existing (λ e, subsumes self terminal v e))
                  exact_facts)
        then Ok SUBSUMES_EXISTING
        (* Check whether the proposed fact is subsumed by an existing fact. *)
        else if
          (if _date_valued self terminal
           then existsb (λ e, _finer_date proposed_date e) existing_dates
           else existsb (λ existing,
                   if_Frame existing (λ e, subsumes self terminal e v))
                  exact_facts)
        then Ok SUBSUMED_BY_EXISTING
        (* Check for conflicts in case of unique-valued properties. *)
        else if bool_decide (length prop = 1)
                && bool_decide (first_property prop ∈ unique_properties self)
        then Ok CONFLICT
        (* Proposed fact is an additional one. *)
        else Ok ADDITIONAL
  | _ => Raise AssertionError
  end.


(** ** The aggregator *)

(** For CONFLICT, SUBSUMES_EXISTING, and EXACT, we store only a handful
    of source items. For the rest, we store all source items. *)
Definition MAX_SOURCE_ITEMS : nat := 10.

Definition TYPES_WITH_EXEMPLARS_ONLY : gset FactMatchType :=
  {[ EXACT; CONFLICT; SUBSUMES_EXISTING ]}.

(** Output of match statistics computation across multiple source items:
    a histogram over the match types, and corresponding source items. *)
Record Output := {
  counts : gmap FactMatchType nat;                (* match type -> count *)
  source_items : gmap FactMatchType (list frame); (* match type -> [some] source items *)
}.

#[global] Instance Output_eq_dec : EqDecision Output.
Proof. solve_decision. Defined.

Definition Output_init : Output := {| counts := ∅; source_items := ∅ |}.

(** [d[k]] on a [defaultdict]: a missing key is first bound to the default
    value, which is then the value read. *)
Definition defaultdict_get `{Countable K} {V} (default : V) (d : gmap K V) (k : K)
    : V * gmap K V :=
  match d !! k with
  | Some v => (v, d)
  | None => (default, <[k := default]> d)
  end.

(** Adds a match type with corresponding source item to the output. *)
Definition add (self : Output) (match_type : FactMatchType) (source_item : frame)
    : Output :=
  let '(n, counts1) := defaultdict_get 0 (counts self) match_type in
  let counts2 := <[match_type := n + 1]> counts1 in
  if bool_decide (match_type ∉ TYPES_WITH_EXEMPLARS_ONLY) then
    let '(l, items1) := defaultdict_get [] (source_items self) match_type in
    {| counts := counts2;
       source_items := <[match_type := l ++ [source_item]]> items1 |}
  else
    let '(l, items1) := defaultdict_get [] (source_items self) match_type in
    if bool_decide (length l < MAX_SOURCE_ITEMS) then
      {| counts := counts2;
         source_items := <[match_type := l ++ [source_item]]> items1 |}
    else
      {| counts := counts2; source_items := items1 |}.

(** A sequence of additions to a fresh output. *)
Definition add_all (additions : list (FactMatchType * frame)) (output : Output)
    : Output :=
  foldl (λ o a, add o a.1 a.2) output additions.

(** Same as [for_item], but returns a histogram of match types over
    multiple items. *)
Fixpoint for_items_loop (self : FactMatcher) (items : list frame) (prop : prop_arg)
    (value : value) (output : Output) : result Output :=
  match items with
  | [] => Ok output
  | item :: items' =>
      match_type ← for_item self item prop value;
      for_items_loop self items' prop value (add output match_type item)
  end.

Definition for_items (self : FactMatcher) (items : list frame) (prop : prop_arg)
    (value : value) : result Output :=
  for_items_loop self items prop value Output_init.

(** ** Match statistics for the parses of a category *)

(** A span of a parse proposes the value [qid] along the pid-path [pids]. *)
Record Span := { pids : list frame; qid : value }.
Record Parse := { spans : list Span }.
Record Category := { members : list frame; parses : list Parse }.

(** Modelled from the spec: a property path is compared as a sequence, so
    the dictionary key [(span.pids, span.qid)] is the pair of the pid list
    and the value, compared by structure. *)
Definition span_key (span : Span) : list frame * value := (pids span, qid span).

(** The state of the loops of [for_parses]: the cache, and the keys for
    which [for_items] has been called so far, oldest first.  The second
    component is not in the source; it records the calls. *)
Record parses_state := {
  cache : gmap (list frame * value) Output;   (* (pid, qid) -> match stats *)
  calls : list (list frame * value);
}.

Definition parses_state_init : parses_state := {| cache := ∅; calls := [] |}.

(** The body of the loop over the spans of a parse. *)
Definition span_stats (self : FactMatcher) (items : list frame)
    (st : parses_state) (span : Span) : result (Output * parses_state) :=
  let key := span_key span in
  match cache st !! key with
  | Some stats => Ok (stats, st)
  | None =>
      stats ← for_items self items (Path (pids span)) (qid span);
      Ok (stats, {| cache := <[key := stats]> (cache st);
                    calls := calls st ++ [key] |})
  end.

(** A loop that appends one result per element while threading a state. *)
Fixpoint loop_st {S A B} (body : S → A → result (B * S)) (st : S) (l : list A)
    : result (list B * S) :=
  match l with
  | [] => Ok ([], st)
  | x :: l' =>
      r ← body st x;
      rs ← loop_st body r.2 l';
      Ok (r.1 :: rs.1, rs.2)
  end.

(** [for_parses] together with its final state. *)
Definition for_parses_st (self : FactMatcher) (category : Category)
    : result (list (list Output) * parses_state) :=
  let items := members category in
  loop_st (λ st parse, loop_st (span_stats self items) st (spans parse))
    parses_state_init (parses category).

(** Returns one list of match-type histograms per parse in [category]. *)
Definition for_parses (self : FactMatcher) (category : Category)
    : result (list (list Output)) :=
  fst <$> for_parses_st self category.


(** The evaluation without a cache that the specification compares with:
    every span of every parse gets [for_items] over the members. *)
Fixpoint mapM {A B} (f : A → result B) (l : list A) : result (list B) :=
  match l with
  | [] => Ok []
  | x :: l' =>
      y ← f x;
      ys ← mapM f l';
      Ok (y :: ys)
  end.

Definition for_parses_uncached (self : FactMatcher) (category : Category)
    : result (list (list Output)) :=
  mapM (λ parse,
          mapM (λ span, for_items self (members category) (Path (pids span)) (qid span))
            (spans parse))
    (parses category).


End Classifier.

(** ** A small knowledge base *)

(** Five properties: date of birth (a date), spouse (single-valued),
    place of birth (a location), educated at and occupation. *)
Definition sample_slots (f : frame) : list (frame * value) :=
  if bool_decide (f = "/w/entity") then
    [("role", Frame "P569"); ("role", Frame "P26"); ("role", Frame "P19");
     ("role", Frame "P69"); ("role", Frame "P106")]
  else if bool_decide (f = "P569") then [("target", Frame "/w/time")]
  else if bool_decide (f = "P26") then
    [("target", Frame "/w/item"); ("P2302", Frame "Q19474404")]
  else if bool_decide (f = "P19") then
    [("target", Frame "/w/item"); ("P1647", Frame "P276")]
  else if bool_decide (f = "P69") then [("target", Frame "/w/item")]
  else if bool_decide (f = "P106") then [("target", Frame "/w/item")]
  else [].

Definition sample_kb : KB :=
  {| slots := sample_slots;
     resolve := λ f, if bool_decide (f = "Q90-redirect") then "Q90" else f |}.

(** Ann was born in 1990 in Paris, is married to Bob, studied at a college
    of a university and is a cyclist and a coach; Cid has no facts. *)
Definition sample_facts_for (item : frame) (pids : list frame) (closure : bool)
    : list (list value) :=
  if bool_decide (item = "Ann") then
    if bool_decide (pids = ["P569"]) then [[Frame "P569"; Str "1990"]]
    else if bool_decide (pids = ["P26"]) then [[Frame "P26"; Frame "Bob"]]
    else if bool_decide (pids = ["P19"]) then
      [[Frame "P19"; Frame "Q90"]; [Frame "P19"; Frame "P17"; Frame "Q142"]]
    else if bool_decide (pids = ["P69"]) then [[Frame "P69"; Frame "College"]]
    else if bool_decide (pids = ["P106"]) then
      [[Frame "P106"; Frame "Cyclist"]; [Frame "P106"; Frame "Coach"]]
    else []
  else [].

(** [in_closure(store, property, coarse, fine)]: Paris is located in
    France, the college is part of the university, a cyclist is a kind of
    athlete. *)
Definition sample_in_closure (property coarse fine : frame) : bool :=
  bool_decide ((property, coarse, fine) = ("P131", "Q142", "Q90"))
  || bool_decide ((property, coarse, fine) = ("P361", "University", "College"))
  || bool_decide ((property, coarse, fine) = ("P279", "Athlete", "Cyclist")).

Definition sample_extractor : FactExtractor :=
  {| facts_for := sample_facts_for; in_closure := sample_in_closure |}.

Definition sample_matcher : FactMatcher :=
  match FactMatcher_init sample_kb sample_extractor with
  | Ok self => self
  | Raise _ =>
      {| kb := sample_kb; extractor := sample_extractor;
         unique_properties := ∅; date_properties := ∅;
         location_properties := ∅; closure_properties := ∅;
         p_subclass := EmptyString; p_parent_org := EmptyString |}
  end.

(** Dates of the sample: the string "1990" is the year 1990, the frame
    "1990-03" is March 1990, the frame "1990s" is the decade from 1990. *)
Definition sample_Date (v : value) : Date :=
  if bool_decide (v = Str "1990") then mkDate 1990 0 0 YEAR
  else if bool_decide (v = Frame "1990-03") then mkDate 1990 3 0 MONTH
  else if bool_decide (v = Frame "1990s") then mkDate 1990 0 0 DECADE
  else if bool_decide (v = Frame "1990") then mkDate 1990 0 0 YEAR
  else mkDate 0 0 0 DAY.

(** A scalar of a date that keeps the digits its precision covers. *)
Definition sample_Date_value (d : Date) : value :=
  match precision d with
  | MILLENNIUM => Int (year d / 1000)
  | CENTURY => Int (year d / 100)
  | DECADE => Int (year d / 10)
  | YEAR => Int (year d)
  | MONTH => Int (year d * 100 + month d)
  | DAY => Int (year d * 10000 + month d * 100 + day d)
  end.

(** ** Notions of the specification *)

(** The calendar granule of [second] holds the instant of [first].  No
    precision is finer than DAY, so nothing is asked of the granule of a
    day. *)
Definition in_granule (first second : Date) : Prop :=
  match precision second with
  | MILLENNIUM => (year second ≤ year first < year second + 1000)%Z
  | CENTURY => (year second ≤ year first < year second + 100)%Z
  | DECADE => (year second ≤ year first < year second + 10)%Z
  | YEAR => year first = year second
  | MONTH => year first = year second ∧ month first = month second
  | DAY => True
  end.

(** [first] has strictly finer precision than [second]. *)
Definition strictly_finer (first second : Precision) : Prop :=
  (Precision_value second < Precision_value first)%Z.

(** The granule of a date starts on a multiple of its length. *)
Definition aligned (d : Date) : Prop :=
  match precision d with
  | MILLENNIUM => (1000 | year d)%Z
  | CENTURY => (100 | year d)%Z
  | DECADE => (10 | year d)%Z
  | _ => True
  end.

Section Rules.

Context (sling_Date : value → Date) (Date_value : Date → value).
Context (self : FactMatcher).

(** The rules of the classifier in their order of precedence, for the
    proposed frame [v] along the path [prop] against the existing facts
    [facts]. *)
Definition rule_NEW (facts : list value) : Prop := facts = [].

Definition rule_EXACT (prop : list frame) (v : frame) (facts : list value) : Prop :=
  Frame v ∈ facts
  ∨ (terminal_property prop ∈ date_properties self
     ∧ ∃ e, e ∈ facts
            ∧ Date_value (sling_Date e) = Date_value (sling_Date (Frame v))).

Definition rule_SUBSUMES (prop : list frame) (v : frame) (facts : list value) : Prop :=
  if decide (terminal_property prop ∈ date_properties self)
  then ∃ e, e ∈ facts ∧ _finer_date (sling_Date e) (sling_Date (Frame v)) = true
  else ∃ e, Frame e ∈ facts ∧ subsumes self (terminal_property prop) v e = true.

Definition rule_SUBSUMED (prop : list frame) (v : frame) (facts : list value) : Prop :=
  if decide (terminal_property prop ∈ date_properties self)
  then ∃ e, e ∈ facts ∧ _finer_date (sling_Date (Frame v)) (sling_Date e) = true
  else ∃ e, Frame e ∈ facts ∧ subsumes self (terminal_property prop) e v = true.

Definition rule_CONFLICT (prop : list frame) : Prop :=
  length prop = 1 ∧ first_property prop ∈ unique_properties self.

End Rules.

(** The matcher with the facts of its extractor replaced. *)
Definition with_facts_for (self : FactMatcher)
    (facts : frame → list frame → bool → list (list value)) : FactMatcher :=
  {| kb := kb self;
     extractor := {| facts_for := facts; in_closure := in_closure (extractor self) |};
     unique_properties := unique_properties self;
     date_properties := date_properties self;
     location_properties := location_properties self;
     closure_properties := closure_properties self;
     p_subclass := p_subclass self;
     p_parent_org := p_parent_org self |}.

(** Reading the histogram: the count and the source items of a match
    type, zero and none for a type that was never added. *)
Definition count_of (output : Output) (match_type : FactMatchType) : nat :=
  default 0 (counts output !! match_type).

Definition source_items_of (output : Output) (match_type : FactMatchType) : list frame :=
  default [] (source_items output !! match_type).

(** What every output built by additions satisfies. *)
Definition exemplars_bounded (output : Output) : Prop :=
  ∀ t,
    (t ∈ TYPES_WITH_EXEMPLARS_ONLY →
     length (source_items_of output t) = count_of output t `min` MAX_SOURCE_ITEMS)
    ∧ (t ∉ TYPES_WITH_EXEMPLARS_ONLY →
       length (source_items_of output t) = count_of output t).

(** The keys of the spans of a category, parse by parse. *)
Definition category_keys (category : Category) : list (list frame * value) :=
  concat ((λ parse, span_key <$> spans parse) <$> parses category).

(** The distinct keys of a list in the order of their first occurrence. *)
Definition add_new (seen : list (list frame * value)) (key : list frame * value)
    : list (list frame * value) :=
  if decide (key ∈ seen) then seen else seen ++ [key].

Definition distinct_keys (keys : list (list frame * value)) : list (list frame * value) :=
  foldl add_new [] keys.

(** What the loops of [for_parses] maintain: a cached histogram is the one
    [for_items] computes for its key over [items], and the cached keys
    are the recorded calls, each recorded once. *)
Definition cache_sound (sling_Date : value → Date) (Date_value : Date → value)
    (self : FactMatcher) (items : list frame) (st : parses_state) : Prop :=
  (∀ key stats, cache st !! key = Some stats →
     for_items sling_Date Date_value self items (Path key.1) key.2 = Ok stats)
  ∧ (∀ key, key ∈ calls st ↔ is_Some (cache st !! key))
  ∧ NoDup (calls st).

(** The same facts in the opposite order. *)
Definition sample_facts_reversed (item : frame) (pids : list frame) (closure : bool)
    : list (list value) :=
  reverse (sample_facts_for item pids closure).

(** Twelve exact matches and one new fact. *)
Definition sample_additions : list (FactMatchType * frame) :=
  replicate 12 (EXACT, "Ann") ++ [(NEW, "Cid")].

(** Two records with one span in common: the cyclists Ann and Cid, read
    in two ways, and the painters, of whom only Cid is known. *)
Definition sample_span_athlete : Span :=
  {| pids := ["P106"]; qid := Frame "Athlete" |}.
Definition sample_span_paris : Span :=
  {| pids := ["P19"]; qid := Frame "Q90" |}.

Definition sample_cyclists : Category :=
  {| members := ["Ann"; "Cid"];
     parses := [ {| spans := [sample_span_athlete; sample_span_paris] |};
                 {| spans := [sample_span_athlete] |} ] |}.


(** ** Notions for the further properties *)

#[global] Instance exn_eq_dec : EqDecision exn.
Proof. solve_decision. Defined.

#[global] Instance result_eq_dec `{EqDecision A} : EqDecision (result A).
Proof. solve_decision. Defined.

(** What the constructor looks for in a property [p] of the knowledge
    base: a target that is the time type; a target that is the item type
    with a subproperty-of slot that resolves to the location property; a
    constraint that is the single-value constraint or has it in its [is]
    slot. *)
Definition declared_date (kb : KB) (p : frame) : Prop :=
  slot_get kb p (kb_get "target") = Some (Frame (kb_get "/w/time")).

Definition declared_location (kb : KB) (p : frame) : Prop :=
  slot_get kb p (kb_get "target") = Some (Frame (kb_get "/w/item"))
  ∧ ∃ v, (kb_get "P1647", Frame v) ∈ slots kb p ∧ resolve kb v = kb_get "P276".

Definition declared_unique (kb : KB) (p : frame) : Prop :=
  ∃ c, Frame c ∈ slot_values kb p (kb_get "P2302")
       ∧ (c = kb_get "Q19474404"
          ∨ slot_get kb c (kb_get "is") = Some (Frame (kb_get "Q19474404"))).

(** The properties that the constructor runs over. *)
Definition role_values (kb : KB) : list value :=
  slot_values kb (kb_get "/w/entity") (kb_get "role").

(** A role value that the loop of the constructor gets through: a frame
    whose constraint values are frames. *)
Definition readable_property (kb : KB) (prop : value) : Prop :=
  ∃ p, prop = Frame p
       ∧ Forall (λ c, ∃ f, c = Frame f) (slot_values kb p (kb_get "P2302")).

(** The source items added with a match type, in the order of addition. *)
Definition items_added (additions : list (FactMatchType * frame))
    (match_type : FactMatchType) : list frame :=
  (filter (λ a, a.1 = match_type) additions).*2.

(** A span that [for_item] accepts: a frame proposed along a non-empty
    path. *)
Definition span_accepted (span : Span) : Prop :=
  (∃ v, qid span = Frame v) ∧ pids span ≠ [].

(** A knowledge base whose role values cannot be read: a number among the
    properties. *)
Definition sample_kb_unreadable : KB :=
  {| slots := λ f, if bool_decide (f = "/w/entity")
                   then [("role", Frame "P569"); ("role", Int 7)]
                   else sample_slots f;
     resolve := λ f, f |}.

(** A record with a span that proposes a number. *)
Definition sample_rejected : Category :=
  {| members := ["Ann"];
     parses := [ {| spans := [sample_span_athlete;
                              {| pids := ["P106"]; qid := Int 3 |}] |} ] |}.

(** The facts of the sample twice over, the second time in the opposite
    order. *)
Definition sample_facts_doubled (item : frame) (pids : list frame) (closure : bool)
    : list (list value) :=
  sample_facts_for item pids closure ++ sample_facts_reversed item pids closure.

(** Facts whose values are strings: the occupation and the spouse of Ann
    by name. *)
Definition sample_facts_strings (item : frame) (pids : list frame) (closure : bool)
    : list (list value) :=
  if bool_decide (item = "Ann") then
    if bool_decide (pids = ["P106"]) then [[Frame "P106"; Str "cyclist"]]
    else if bool_decide (pids = ["P26"]) then [[Frame "P26"; Str "Bob"]]
    else []
  else [].

(** An extractor that answers like the sample one without closure backoff
    and knows nothing with it. *)
Definition sample_facts_no_backoff (item : frame) (pids : list frame)
    (closure : bool) : list (list value) :=
  if closure then [] else sample_facts_for item pids closure.

(** The matcher with another extractor. *)
Definition with_extractor (self : FactMatcher) (other : FactExtractor) : FactMatcher :=
  {| kb := kb self;
     extractor := other;
     unique_properties := unique_properties self;
     date_properties := date_properties self;
     location_properties := location_properties self;
     closure_properties := closure_properties self;
     p_subclass := p_subclass self;
     p_parent_org := p_parent_org self |}.

Definition sample_extractor_no_backoff : FactExtractor :=
  {| facts_for := sample_facts_no_backoff; in_closure := sample_in_closure |}.

(** A reading of dates that sees the same day in everything. *)
Definition sample_Date_blind (v : value) : Date := mkDate 0 0 0 DAY.

(** * Properties *)

(** ** The date comparator *)

Lemma finer_date_spec first second :
  _finer_date first second = true ↔
  strictly_finer (precision first) (precision second) ∧ in_granule first second.
Proof.
  unfold _finer_date, strictly_finer, in_granule.
  destruct (precision first), (precision second); simpl;
    rewrite ?andb_true_iff, ?Z.geb_le, ?Z.ltb_lt, ?Z.eqb_eq; lia.
Qed.

(** C4: [_finer_date first second] holds exactly when [first] has strictly
    finer precision than [second] and lies in the granule of [second] (a
    range of 1000, 100 or 10 years from the year of a MILLENNIUM, CENTURY or
    DECADE, the same year for a YEAR, the same year and month for a MONTH),
    and it never holds when [second] has DAY precision. *)
Theorem C4_finer_date_granule :
  ∀ first second,
    (_finer_date first second = true ↔
     strictly_finer (precision first) (precision second)
     ∧ match precision second with
       | MILLENNIUM => (year second ≤ year first < year second + 1000)%Z
       | CENTURY => (year second ≤ year first < year second + 100)%Z
       | DECADE => (year second ≤ year first < year second + 10)%Z
       | YEAR => year first = year second
       | MONTH => year first = year second ∧ month first = month second
       | DAY => True
       end)
    ∧ (precision second = DAY → _finer_date first second = false).
Proof.
  intros first second. split.
  - rewrite finer_date_spec. unfold in_granule. by destruct (precision second).
  - intros Hp. apply not_true_is_false. rewrite finer_date_spec.
    unfold strictly_finer. rewrite Hp. destruct (precision first); simpl; lia.
Qed.

Lemma C4_finer_date_granule_witness :
  _finer_date (mkDate 1990 3 0 MONTH) (mkDate 1990 0 0 YEAR) = true
  ∧ _finer_date (mkDate 1990 3 0 MONTH) (mkDate 1990 3 14 DAY) = false.
Proof.
  split.
  - apply (proj1 (C4_finer_date_granule (mkDate 1990 3 0 MONTH) (mkDate 1990 0 0 YEAR))).
    unfold strictly_finer; simpl. split; [lia | reflexivity].
  - apply (proj2 (C4_finer_date_granule (mkDate 1990 3 0 MONTH) (mkDate 1990 3 14 DAY))).
    reflexivity.
Defined.

(** On dates whose granules start on a multiple of their length the
    comparison is also transitive. *)
Lemma finer_date_trans_aligned a b c :
  aligned b → aligned c →
  _finer_date a b = true → _finer_date b c = true → _finer_date a c = true.
Proof.
  rewrite !finer_date_spec. unfold aligned, strictly_finer, in_granule.
  intros Hb Hc [Hab Gab] [Hbc Gbc].
  destruct (precision a), (precision b), (precision c); simpl in *;
    try lia;
    repeat match goal with
           | H : (_ | _)%Z |- _ => destruct H as [? ?]
           end; lia.
Qed.

(** C5, as the code has it: [_finer_date] is asymmetric and irreflexive on
    all dates: it never holds in both directions between two dates, and
    never between a date and itself.  It is transitive, and so a strict
    partial order, on dates whose granules start on a multiple of their
    length (a decade on a multiple of 10, a century of 100, a millennium
    of 1000); on dates that are not so aligned it is not transitive. *)
Theorem C5_finer_date_strict :
  (∀ a b, ¬ (_finer_date a b = true ∧ _finer_date b a = true))
  ∧ (∀ a, _finer_date a a = false)
  ∧ (∀ a b c, aligned b → aligned c →
       _finer_date a b = true → _finer_date b c = true →
       _finer_date a c = true).
Proof.
  split_and!.
  - intros a b [Hab Hba]. apply finer_date_spec in Hab, Hba.
    unfold strictly_finer in *. lia.
  - intros a. apply not_true_is_false. rewrite finer_date_spec.
    unfold strictly_finer. lia.
  - apply finer_date_trans_aligned.
Qed.

Lemma C5_finer_date_strict_witness :
  _finer_date (mkDate 1995 3 0 MONTH) (mkDate 1900 0 0 CENTURY) = true.
Proof.
  apply (proj2 (proj2 C5_finer_date_strict) (mkDate 1995 3 0 MONTH)
    (mkDate 1990 0 0 DECADE) (mkDate 1900 0 0 CENTURY)).
  - by exists 199%Z.
  - by exists 19%Z.
  - reflexivity.
  - reflexivity.
Defined.

(** C5 as stated fails: [_finer_date] is not transitive, so it is not a
    strict partial order on all dates.  The year 2003 lies in the ten
    years from 1995, which start inside the hundred years from 1900, and
    yet 2003 lies outside them. *)
Lemma C5_finer_date_not_a_strict_partial_order :
  _finer_date (mkDate 2003 0 0 YEAR) (mkDate 1995 0 0 DECADE) = true
  ∧ _finer_date (mkDate 1995 0 0 DECADE) (mkDate 1900 0 0 CENTURY) = true
  ∧ _finer_date (mkDate 2003 0 0 YEAR) (mkDate 1900 0 0 CENTURY) = false
  ∧ ¬ (∀ a b c, _finer_date a b = true → _finer_date b c = true →
                _finer_date a c = true).
Proof.
  split_and!; [reflexivity|reflexivity|reflexivity|].
  intros Htrans.
  specialize (Htrans (mkDate 2003 0 0 YEAR) (mkDate 1995 0 0 DECADE)
    (mkDate 1900 0 0 CENTURY) eq_refl eq_refl).
  discriminate Htrans.
Qed.

(** Without that, a year can lie in a decade that starts inside a century
    and yet outside the century. *)
Lemma finer_date_not_transitive :
  let a := mkDate 2003 0 0 YEAR in
  let b := mkDate 1995 0 0 DECADE in
  let c := mkDate 1900 0 0 CENTURY in
  _finer_date a b = true ∧ _finer_date b c = true ∧ _finer_date a c = false.
Proof. done. Qed.

(** ** The match classifier *)

#[local] Set Warnings "-clear-no-such-hyp".

Lemma existsb_elem_of {A} (P : A → bool) (l : list A) :
  existsb P l = true ↔ ∃ x, x ∈ l ∧ P x = true.
Proof.
  rewrite existsb_exists. by setoid_rewrite list_elem_of_In.
Qed.

Lemma existsb_fmap_elem_of {A B} (f : A → B) (P : B → bool) (l : list A) :
  existsb P (f <$> l) = true ↔ ∃ x, x ∈ l ∧ P (f x) = true.
Proof.
  rewrite existsb_elem_of. split.
  - intros (y & Hy & HP). apply list_elem_of_fmap in Hy as (x & -> & Hx). eauto.
  - intros (x & Hx & HP). exists (f x). split; [|done].
    apply list_elem_of_fmap. eauto.
Qed.

Lemma existsb_if_Frame (test : frame → bool) (l : list value) :
  existsb (λ existing, if_Frame existing test) l = true
  ↔ ∃ e, Frame e ∈ l ∧ test e = true.
Proof.
  rewrite existsb_elem_of. split.
  - intros ([e| |] & Hx & HP); simpl in HP; try done. eauto.
  - intros (e & He & HP). exists (Frame e). eauto.
Qed.

Lemma existsb_same_scalar (sling_Date : value → Date) (Date_value : Date → value)
    (d : Date) (l : list value) :
  existsb (λ e, bool_decide (Date_value e = Date_value d)) (sling_Date <$> l) = true
  ↔ ∃ e, e ∈ l ∧ Date_value (sling_Date e) = Date_value d.
Proof.
  rewrite existsb_fmap_elem_of. by setoid_rewrite bool_decide_eq_true.
Qed.

(** Case analysis on the tests of the classifier, each turned into the
    statement it decides. *)
Ltac reflect_existsb :=
  match goal with
  | |- context [existsb ?P (?f <$> ?l)] =>
      let H := fresh "Hex" in
      destruct (existsb P (f <$> l)) eqn:H;
      [ first [ apply existsb_same_scalar in H | apply existsb_fmap_elem_of in H ]
      | apply not_true_iff_false in H;
        first [ rewrite existsb_same_scalar in H | rewrite existsb_fmap_elem_of in H ] ]
  | |- context [existsb ?P ?l] =>
      let H := fresh "Hex" in
      destruct (existsb P l) eqn:H;
      [ apply existsb_if_Frame in H
      | apply not_true_iff_false in H; rewrite existsb_if_Frame in H ]
  end.

Ltac reflect_conflict :=
  match goal with
  | |- context [bool_decide ?P && bool_decide ?Q] =>
      destruct (decide P); destruct (decide Q);
      rewrite ?(bool_decide_eq_true_2 P), ?(bool_decide_eq_false_2 P),
              ?(bool_decide_eq_true_2 Q), ?(bool_decide_eq_false_2 Q) by done;
      cbn [andb]
  end.

Section ClassifierProperties.

Context (sling_Date : value → Date) (Date_value : Date → value).

#[local] Abbreviation classify := (for_item sling_Date Date_value).
#[local] Abbreviation applies_EXACT := (rule_EXACT sling_Date Date_value).
#[local] Abbreviation applies_SUBSUMES := (rule_SUBSUMES sling_Date).
#[local] Abbreviation applies_SUBSUMED := (rule_SUBSUMED sling_Date).

(** The classifier once the existing facts are known: the first rule that
    applies decides. *)
Lemma for_item_rules self item prop v facts :
  _existing_facts self item (prop_list prop) false = Ok facts →
  let r := classify self item prop (Frame v) in
  let path := prop_list prop in
  (rule_NEW facts ∧ r = Ok NEW)
  ∨ (¬ rule_NEW facts ∧ applies_EXACT self path v facts ∧ r = Ok EXACT)
  ∨ (¬ rule_NEW facts ∧ ¬ applies_EXACT self path v facts
     ∧ applies_SUBSUMES self path v facts ∧ r = Ok SUBSUMES_EXISTING)
  ∨ (¬ rule_NEW facts ∧ ¬ applies_EXACT self path v facts
     ∧ ¬ applies_SUBSUMES self path v facts
     ∧ applies_SUBSUMED self path v facts ∧ r = Ok SUBSUMED_BY_EXISTING)
  ∨ (¬ rule_NEW facts ∧ ¬ applies_EXACT self path v facts
     ∧ ¬ applies_SUBSUMES self path v facts
     ∧ ¬ applies_SUBSUMED self path v facts
     ∧ rule_CONFLICT self path ∧ r = Ok CONFLICT)
  ∨ (¬ rule_NEW facts ∧ ¬ applies_EXACT self path v facts
     ∧ ¬ applies_SUBSUMES self path v facts
     ∧ ¬ applies_SUBSUMED self path v facts
     ∧ ¬ rule_CONFLICT self path ∧ r = Ok ADDITIONAL).
Proof.
  intros Hfacts r path. subst r path. unfold for_item.
  rewrite Hfacts. cbn [mbind result_bind rbind].
  unfold rule_NEW, rule_EXACT, rule_SUBSUMES, rule_SUBSUMED, rule_CONFLICT,
    _date_valued.
  case_bool_decide as Hlen.
  { apply nil_length_inv in Hlen. naive_solver. }
  assert (facts ≠ []) as Hne by (by intros ->).
  case_bool_decide as Hin; [naive_solver|].
  case_bool_decide as Hdate; case_decide; try done; cbn [andb];
    repeat reflect_existsb; repeat reflect_conflict; naive_solver.
Qed.

(** C1: when the existing facts of an item along a path, fetched without
    closure backoff, are empty, the classifier answers NEW whatever frame
    is proposed. *)
Theorem C1_no_existing_facts_is_NEW self item prop v :
  _existing_facts self item (prop_list prop) false = Ok [] →
  for_item sling_Date Date_value self item prop (Frame v) = Ok NEW.
Proof.
  intros Hfacts. destruct (for_item_rules self item prop v [] Hfacts) as [H|H];
    unfold rule_NEW in *; naive_solver.
Qed.

(** C2: when the proposed frame is literally among the existing facts the
    classifier answers EXACT, and it still does when the extractor yields
    the same facts in any other order. *)
Theorem C2_literal_member_is_EXACT self item prop v facts :
  _existing_facts self item (prop_list prop) false = Ok facts →
  Frame v ∈ facts →
  for_item sling_Date Date_value self item prop (Frame v) = Ok EXACT
  ∧ ∀ reordered facts',
      _existing_facts (with_facts_for self reordered) item (prop_list prop) false
        = Ok facts' →
      facts' ≡ₚ facts →
      for_item sling_Date Date_value (with_facts_for self reordered)
        item prop (Frame v) = Ok EXACT.
Proof.
  intros Hfacts Hin.
  assert (∀ self' fs, _existing_facts self' item (prop_list prop) false = Ok fs →
            Frame v ∈ fs →
            classify self' item prop (Frame v) = Ok EXACT) as Hexact.
  { intros self' fs Hfs Hv.
    pose proof (for_item_rules self' item prop v fs Hfs) as H. cbn zeta in H.
    assert (¬ rule_NEW fs)
      by (unfold rule_NEW; intros ->; by apply not_elem_of_nil in Hv).
    assert (applies_EXACT self' (prop_list prop) v fs) by (by left).
    naive_solver. }
  split; [by eapply Hexact|].
  intros reordered facts' Hfacts' Hperm. eapply Hexact; [done|].
  by rewrite Hperm.
Qed.

(** C3, as the code has it: when the only existing fact for the date of
    birth (P569) is the year 1990 and the month March 1990 is proposed, the
    scalars of the two dates being different, the classifier answers
    SUBSUMED_BY_EXISTING: the coarser existing date subsumes the proposed
    one. *)
Theorem C3_finer_proposed_date_is_SUBSUMED_BY_EXISTING self item e v :
  kb_get "P569" ∈ date_properties self →
  _existing_facts self item [kb_get "P569"] false = Ok [e] →
  precision (sling_Date e) = YEAR →
  year (sling_Date e) = 1990%Z →
  precision (sling_Date (Frame v)) = MONTH →
  year (sling_Date (Frame v)) = 1990%Z →
  month (sling_Date (Frame v)) = 3%Z →
  Date_value (sling_Date e) ≠ Date_value (sling_Date (Frame v)) →
  for_item sling_Date Date_value self item (Single (kb_get "P569")) (Frame v)
    = Ok SUBSUMED_BY_EXISTING.
Proof.
  intros Hdate Hfacts Hpe Hye Hpv Hyv Hmv Hscalar.
  pose proof (for_item_rules self item (Single (kb_get "P569")) v [e] Hfacts) as H.
  cbn zeta in H. cbn [prop_list] in H.
  assert (¬ rule_NEW [e]) by done.
  assert (¬ applies_EXACT self [kb_get "P569"] v [e]).
  { intros [Hin|(_ & e' & He' & Heq)].
    - apply list_elem_of_singleton in Hin. subst e. congruence.
    - apply list_elem_of_singleton in He'. by subst e'. }
  assert (¬ applies_SUBSUMES self [kb_get "P569"] v [e]).
  { unfold rule_SUBSUMES. cbn [terminal_property List.last].
    rewrite decide_True by done. intros (e' & He' & Hfiner).
    apply list_elem_of_singleton in He'. subst e'.
    apply finer_date_spec in Hfiner as [Hlt _].
    unfold strictly_finer in Hlt. rewrite Hpe, Hpv in Hlt. simpl in Hlt. lia. }
  assert (applies_SUBSUMED self [kb_get "P569"] v [e]).
  { unfold rule_SUBSUMED. cbn [terminal_property List.last].
    rewrite decide_True by done. exists e. split; [by left|].
    apply finer_date_spec. unfold strictly_finer, in_granule.
    rewrite Hpe, Hpv. simpl. split; [lia|congruence]. }
  naive_solver.
Qed.

(** C7: for a path whose last property is not date-valued, the NEW and
    EXACT rules not applying, the classifier answers SUBSUMES_EXISTING as
    soon as the proposed frame subsumes one of the existing frames. *)
Theorem C7_subsuming_proposed_is_SUBSUMES_EXISTING self item prop v facts e :
  _existing_facts self item (prop_list prop) false = Ok facts →
  terminal_property (prop_list prop) ∉ date_properties self →
  ¬ rule_NEW facts →
  ¬ rule_EXACT sling_Date Date_value self (prop_list prop) v facts →
  Frame e ∈ facts →
  subsumes self (terminal_property (prop_list prop)) v e = true →
  for_item sling_Date Date_value self item prop (Frame v) = Ok SUBSUMES_EXISTING.
Proof.
  intros Hfacts Hdate Hnew Hexact Hin Hsub.
  pose proof (for_item_rules self item prop v facts Hfacts) as H. cbn zeta in H.
  assert (applies_SUBSUMES self (prop_list prop) v facts).
  { unfold rule_SUBSUMES. rewrite decide_False by done. eauto. }
  naive_solver.
Qed.

(** C8: the classifier answers CONFLICT only for a path of length one
    whose property is unique-valued, and only when none of the NEW, EXACT,
    SUBSUMES_EXISTING and SUBSUMED_BY_EXISTING rules applies; when none
    of them applies it answers CONFLICT for such a path and ADDITIONAL for
    every other. *)
Theorem C8_CONFLICT_only_for_unique_single_property self item prop v facts :
  _existing_facts self item (prop_list prop) false = Ok facts →
  (for_item sling_Date Date_value self item prop (Frame v) = Ok CONFLICT →
   length (prop_list prop) = 1
   ∧ first_property (prop_list prop) ∈ unique_properties self
   ∧ ¬ rule_NEW facts
   ∧ ¬ rule_EXACT sling_Date Date_value self (prop_list prop) v facts
   ∧ ¬ rule_SUBSUMES sling_Date self (prop_list prop) v facts
   ∧ ¬ rule_SUBSUMED sling_Date self (prop_list prop) v facts)
  ∧ (¬ rule_NEW facts →
     ¬ rule_EXACT sling_Date Date_value self (prop_list prop) v facts →
     ¬ rule_SUBSUMES sling_Date self (prop_list prop) v facts →
     ¬ rule_SUBSUMED sling_Date self (prop_list prop) v facts →
     for_item sling_Date Date_value self item prop (Frame v) =
       Ok (if bool_decide (length (prop_list prop) = 1
                           ∧ first_property (prop_list prop) ∈ unique_properties self)
           then CONFLICT else ADDITIONAL)).
Proof.
  intros Hfacts.
  pose proof (for_item_rules self item prop v facts Hfacts) as H. cbn zeta in H.
  unfold rule_CONFLICT in H.
  split.
  - intros Hr. rewrite Hr in H. naive_solver.
  - intros ????. case_bool_decide; naive_solver.
Qed.

End ClassifierProperties.

(** ** Subsumption *)

Lemma FactMatcher_init_fields kb0 extractor0 self :
  FactMatcher_init kb0 extractor0 = Ok self →
  kb self = kb0
  ∧ extractor self = extractor0
  ∧ closure_properties self
    = <[kb_get "P69" := kb_get "P361"]>
        (gset_to_gmap (kb_get "P131") (location_properties self))
  ∧ p_subclass self = kb_get "P279"
  ∧ p_parent_org self = kb_get "P749".
Proof.
  unfold FactMatcher_init.
  destruct (collect_properties _ _ _) as [[[unique dates] locations]|e];
    cbn [mbind result_bind rbind mret result_ret]; [|done].
  intros [= <-]. done.
Qed.

(** The closure relation that the constructor assigns to a property:
    part-of for educated-at, located-in for every other location-valued
    property, none for the rest. *)
Lemma FactMatcher_init_closure kb0 extractor0 self prop :
  FactMatcher_init kb0 extractor0 = Ok self →
  closure_properties self !! prop =
    if decide (prop = kb_get "P69") then Some (kb_get "P361")
    else if decide (prop ∈ location_properties self) then Some (kb_get "P131")
    else None.
Proof.
  intros (_ & _ & -> & _)%FactMatcher_init_fields.
  case_decide as Heq.
  - subst prop. by rewrite lookup_insert_eq.
  - rewrite lookup_insert_ne by done. rewrite lookup_gset_to_gmap.
    case_decide.
    + by rewrite option_guard_True.
    + by rewrite option_guard_False.
Qed.

(** C6: [subsumes] resolves both frames and holds when they are then
    equal; otherwise it is the closure test over the relation assigned to
    the property (part-of for educated-at, located-in for every other
    location-valued property), and for a property with no assigned relation
    the disjunction of the closure tests over subclass-of and
    parent-organization. *)
Theorem C6_subsumes_closure_relation kb0 extractor0 self prop coarse fine :
  FactMatcher_init kb0 extractor0 = Ok self →
  let c := resolve kb0 coarse in
  let f := resolve kb0 fine in
  (c = f → subsumes self prop coarse fine = true)
  ∧ (c ≠ f → prop = kb_get "P69" →
     subsumes self prop coarse fine = in_closure extractor0 (kb_get "P361") c f)
  ∧ (c ≠ f → prop ≠ kb_get "P69" → prop ∈ location_properties self →
     subsumes self prop coarse fine = in_closure extractor0 (kb_get "P131") c f)
  ∧ (c ≠ f → prop ≠ kb_get "P69" → prop ∉ location_properties self →
     subsumes self prop coarse fine
     = in_closure extractor0 (kb_get "P279") c f
       || in_closure extractor0 (kb_get "P749") c f).
Proof.
  intros Hinit c f.
  pose proof (FactMatcher_init_closure _ _ _ prop Hinit) as Hclosure.
  destruct (FactMatcher_init_fields _ _ _ Hinit) as (Hkb & Hex & _ & Hsub & Hpar).
  unfold subsumes. rewrite Hclosure, Hkb, Hex, Hsub, Hpar. fold c f.
  repeat split.
  - intros ->. by rewrite bool_decide_eq_true_2.
  - intros Hne ->. rewrite bool_decide_eq_false_2 by done.
    by rewrite decide_True.
  - intros Hne Hp Hloc. rewrite bool_decide_eq_false_2 by done.
    rewrite decide_False by done. by rewrite decide_True.
  - intros Hne Hp Hloc. rewrite bool_decide_eq_false_2 by done.
    rewrite decide_False by done. by rewrite decide_False.
Qed.

(** ** The aggregator *)

Lemma count_of_add output match_type source_item t :
  count_of (add output match_type source_item) t =
    if decide (match_type = t) then S (count_of output t) else count_of output t.
Proof.
  unfold add, count_of, defaultdict_get.
  destruct (counts output !! match_type) as [n|] eqn:Hn;
    repeat case_bool_decide;
    destruct (source_items output !! match_type) as [l|] eqn:Hl;
    repeat case_bool_decide; cbn [counts];
    (case_decide as Heq;
     [ subst t; rewrite lookup_insert_eq, ?Hn; cbn; lia
     | rewrite !lookup_insert_ne by done; done ]).
Qed.

Lemma source_items_of_add output match_type source_item t :
  source_items_of (add output match_type source_item) t =
    if decide (match_type = t) then
      if decide (match_type ∈ TYPES_WITH_EXEMPLARS_ONLY
                 ∧ MAX_SOURCE_ITEMS ≤ length (source_items_of output t))
      then source_items_of output t
      else source_items_of output t ++ [source_item]
    else source_items_of output t.
Proof.
  unfold add, source_items_of, defaultdict_get.
  destruct (counts output !! match_type) as [n|] eqn:Hn;
    destruct (source_items output !! match_type) as [l|] eqn:Hl;
    repeat case_bool_decide; cbn [source_items];
    (case_decide as Heq;
     [ subst t; rewrite ?lookup_insert_eq, ?Hl; cbn;
       case_decide; cbn in *; try done; naive_solver lia
     | rewrite ?lookup_insert_ne by done; done ]).
Qed.

Lemma exemplars_bounded_init : exemplars_bounded Output_init.
Proof. intros t. unfold source_items_of, count_of. cbn. by rewrite !lookup_empty. Qed.

Lemma exemplars_bounded_add output match_type source_item :
  exemplars_bounded output → exemplars_bounded (add output match_type source_item).
Proof.
  intros Hinv t. destruct (Hinv t) as [Hcap Hall].
  rewrite source_items_of_add, count_of_add.
  unfold MAX_SOURCE_ITEMS in *.
  split; intros Ht; repeat case_decide; rewrite ?length_app; cbn [length];
    try (specialize (Hcap Ht)); try (specialize (Hall Ht)); subst;
    try lia; try tauto.
  - destruct (decide (10 ≤ length (source_items_of output t))); [tauto|lia].
Qed.

Lemma exemplars_bounded_add_all additions output :
  exemplars_bounded output → exemplars_bounded (add_all additions output).
Proof.
  revert output. induction additions as [|a additions IH]; intros output Hinv; [done|].
  apply IH. by apply exemplars_bounded_add.
Qed.

Lemma count_of_add_all additions output t :
  count_of (add_all additions output) t
  = count_of output t + length (filter (λ a, a.1 = t) additions).
Proof.
  revert output. induction additions as [|a additions IH]; intros output.
  { cbn. lia. }
  cbn [add_all foldl]. fold (add_all additions (add output a.1 a.2)).
  rewrite IH, count_of_add, filter_cons.
  repeat case_decide; cbn; try done; lia.
Qed.

Lemma for_items_loop_add_all sling_Date Date_value self items prop value output stats :
  for_items_loop sling_Date Date_value self items prop value output = Ok stats →
  ∃ additions, additions.*2 = items ∧ stats = add_all additions output.
Proof.
  revert output. induction items as [|item items IH]; intros output.
  { intros [= <-]. by exists []. }
  cbn [for_items_loop].
  destruct (for_item _ _ _ item prop value) as [match_type|e];
    cbn [mbind result_bind rbind]; [|done].
  intros (additions & <- & ->)%IH. by exists ((match_type, item) :: additions).
Qed.

(** C9: in the output after any sequence of additions, the count of a
    match type is the number of additions of that type; the source items
    kept for EXACT, CONFLICT and SUBSUMES_EXISTING are at most 10; and the
    source items kept for NEW, SUBSUMED_BY_EXISTING and ADDITIONAL are as
    many as the count. *)
Theorem C9_exemplar_lists additions t :
  let output := add_all additions Output_init in
  count_of output t = length (filter (λ a, a.1 = t) additions)
  ∧ (t ∈ [EXACT; CONFLICT; SUBSUMES_EXISTING] →
     length (source_items_of output t) ≤ 10)
  ∧ (t ∈ [NEW; SUBSUMED_BY_EXISTING; ADDITIONAL] →
     length (source_items_of output t) = count_of output t).
Proof.
  intros output.
  destruct (exemplars_bounded_add_all additions Output_init exemplars_bounded_init t)
    as [Hcap Hall]. fold output in Hcap, Hall.
  split; [|split].
  - subst output. rewrite count_of_add_all. unfold count_of. cbn.
    by rewrite lookup_empty.
  - intros Ht. rewrite Hcap.
    + unfold MAX_SOURCE_ITEMS. lia.
    + unfold TYPES_WITH_EXEMPLARS_ONLY. set_solver.
  - intros Ht. apply Hall. unfold TYPES_WITH_EXEMPLARS_ONLY.
    set_unfold. naive_solver.
Qed.

(** The histogram that [for_items] returns is built by such additions, one
    per item. *)
Lemma for_items_exemplars_bounded sling_Date Date_value self items prop value stats :
  for_items sling_Date Date_value self items prop value = Ok stats →
  exemplars_bounded stats.
Proof.
  intros (additions & _ & ->)%for_items_loop_add_all.
  apply exemplars_bounded_add_all, exemplars_bounded_init.
Qed.

(** ** The cache of [for_parses] *)






Lemma foldl_add_new_concat (ls : list (list (list frame * value))) seen :
  foldl (λ seen l, foldl add_new seen l) seen ls = foldl add_new seen (concat ls).
Proof.
  revert seen. induction ls as [|l ls IH]; intros seen; [done|].
  cbn. by rewrite foldl_app, IH.
Qed.

(** A loop whose body follows [f] on the results, keeps [Inv] and moves
    the observation [g] of the state by [u] does so as a whole. *)
Lemma loop_st_mapM {S A B G} (body : S → A → result (B * S)) (f : A → result B)
    (Inv : S → Prop) (g : S → G) (u : G → A → G) :
  (∀ st x, Inv st →
     match f x with
     | Ok y => ∃ st', body st x = Ok (y, st') ∧ Inv st' ∧ g st' = u (g st) x
     | Raise e => body st x = Raise e
     end) →
  ∀ l st, Inv st →
    match mapM f l with
    | Ok ys => ∃ st', loop_st body st l = Ok (ys, st') ∧ Inv st'
                      ∧ g st' = foldl u (g st) l
    | Raise e => loop_st body st l = Raise e
    end.
Proof.
  intros Hbody l. induction l as [|x l IH]; intros st Hst.
  { cbn. eauto. }
  cbn [mapM loop_st]. specialize (Hbody st x Hst).
  destruct (f x) as [y|e]; cbn [mbind result_bind rbind].
  - destruct Hbody as (st1 & -> & Hst1 & Hg1). cbn [mbind result_bind rbind snd fst].
    specialize (IH st1 Hst1).
    destruct (mapM f l) as [ys|e]; cbn [mbind result_bind rbind].
    + destruct IH as (st2 & -> & Hst2 & Hg2). cbn.
      exists st2. by rewrite Hg2, Hg1.
    + by rewrite IH.
  - by rewrite Hbody.
Qed.

Section CacheProperties.

Context (sling_Date : value → Date) (Date_value : Date → value).
Context (self : FactMatcher) (items : list frame).

#[local] Abbreviation stats_of :=
  (λ span, for_items sling_Date Date_value self items (Path (pids span)) (qid span)).

Lemma cache_sound_init :
  cache_sound sling_Date Date_value self items parses_state_init.
Proof.
  split_and!; cbn.
  - intros key stats. by rewrite lookup_empty.
  - intros key. rewrite lookup_empty, elem_of_nil. split; [done|].
    by intros [? ?].
  - apply NoDup_nil_2.
Qed.

Lemma span_stats_spec st span :
  cache_sound sling_Date Date_value self items st →
  match stats_of span with
  | Ok stats =>
      ∃ st', span_stats sling_Date Date_value self items st span = Ok (stats, st')
             ∧ cache_sound sling_Date Date_value self items st'
             ∧ calls st' = add_new (calls st) (span_key span)
  | Raise e => span_stats sling_Date Date_value self items st span = Raise e
  end.
Proof.
  intros (Hsound & Hcalls & Hnodup). unfold span_stats, add_new.
  destruct (cache st !! span_key span) as [cached|] eqn:Hcache.
  - pose proof (Hsound _ _ Hcache) as Hstats. cbn [span_key fst snd] in Hstats.
    rewrite Hstats. exists st. split_and!; try done.
    rewrite decide_True; [done|]. apply Hcalls. by rewrite Hcache.
  - assert (span_key span ∉ calls st) as Hnew.
    { rewrite Hcalls, Hcache. by intros [? ?]. }
    destruct (stats_of span) as [stats|e] eqn:Hstats;
      cbn [mbind result_bind rbind]; [|done].
    eexists. split; [done|]. cbn [calls cache].
    rewrite decide_False by done. split; [|done].
    split_and!; cbn [calls cache].
    + intros key stats'. destruct (decide (key = span_key span)) as [->|Hne].
      * rewrite lookup_insert_eq. by intros [= <-].
      * rewrite lookup_insert_ne by done. apply Hsound.
    + intros key. rewrite elem_of_app, list_elem_of_singleton.
      destruct (decide (key = span_key span)) as [->|Hne].
      * rewrite lookup_insert_eq. naive_solver.
      * rewrite lookup_insert_ne by done. rewrite <- Hcalls. naive_solver.
    + apply NoDup_app. split_and!; [done| |apply NoDup_singleton].
      by intros x Hx ->%list_elem_of_singleton.
Qed.

Lemma spans_loop_spec st (l : list Span) :
  cache_sound sling_Date Date_value self items st →
  match mapM stats_of l with
  | Ok ys =>
      ∃ st', loop_st (span_stats sling_Date Date_value self items) st l = Ok (ys, st')
             ∧ cache_sound sling_Date Date_value self items st'
             ∧ calls st' = foldl add_new (calls st) (span_key <$> l)
  | Raise e => loop_st (span_stats sling_Date Date_value self items) st l = Raise e
  end.
Proof.
  intros Hst.
  pose proof (loop_st_mapM (span_stats sling_Date Date_value self items) stats_of
    (cache_sound sling_Date Date_value self items) calls
    (λ seen span, add_new seen (span_key span)) span_stats_spec l st Hst) as H.
  destruct (mapM _ l); [|done].
  destruct H as (st' & ? & ? & Hg). exists st'. split_and!; try done.
  rewrite Hg. clear. generalize (calls st). induction l as [|x l IH]; intros seen; [done|].
  cbn. apply IH.
Qed.

Lemma for_parses_st_spec (category : Category) :
  members category = items →
  match for_parses_uncached sling_Date Date_value self category with
  | Ok output =>
      ∃ st, for_parses_st sling_Date Date_value self category = Ok (output, st)
            ∧ calls st = distinct_keys (category_keys category)
  | Raise e => for_parses_st sling_Date Date_value self category = Raise e
  end.
Proof.
  intros Hitems. unfold for_parses_uncached, for_parses_st. rewrite Hitems.
  pose proof (loop_st_mapM
    (λ st parse, loop_st (span_stats sling_Date Date_value self items) st (spans parse))
    (λ parse, mapM stats_of (spans parse))
    (cache_sound sling_Date Date_value self items) calls
    (λ seen parse, foldl add_new seen (span_key <$> spans parse))
    (λ st parse, spans_loop_spec st (spans parse))
    (parses category) parses_state_init cache_sound_init) as H.
  destruct (mapM _ (parses category)); [|done].
  destruct H as (st & Hst & _ & Hg). exists st. split; [done|].
  rewrite Hg. unfold distinct_keys, category_keys. cbn [calls parses_state_init].
  rewrite <- foldl_add_new_concat. clear Hst Hg.
  generalize (@nil (list frame * value)).
  induction (parses category) as [|parse l IH]; intros seen; [done|].
  cbn. apply IH.
Qed.

End CacheProperties.


(** * The properties on the sample knowledge base *)

(** Decides a closed statement by evaluation. *)
Ltac by_compute :=
  match goal with
  | |- ¬ ?P =>
      let d := constr:(_ : Decision P) in
      refine (@bool_decide_eq_false_1 P d _); vm_compute; reflexivity
  | |- ?P =>
      let d := constr:(_ : Decision P) in
      refine (@bool_decide_eq_true_1 P d _); vm_compute; reflexivity
  end.

Lemma sample_matcher_init :
  FactMatcher_init sample_kb sample_extractor = Ok sample_matcher.
Proof. vm_compute. reflexivity. Qed.

Lemma C1_no_existing_facts_is_NEW_witness :
  for_item sample_Date sample_Date_value sample_matcher "Cid" (Single "P106")
    (Frame "Painter") = Ok NEW.
Proof.
  apply C1_no_existing_facts_is_NEW. vm_compute. reflexivity.
Defined.

Lemma C2_literal_member_is_EXACT_witness :
  for_item sample_Date sample_Date_value sample_matcher "Ann" (Single "P106")
    (Frame "Coach") = Ok EXACT
  ∧ for_item sample_Date sample_Date_value
      (with_facts_for sample_matcher sample_facts_reversed) "Ann" (Single "P106")
      (Frame "Coach") = Ok EXACT.
Proof.
  pose proof (C2_literal_member_is_EXACT sample_Date sample_Date_value
    sample_matcher "Ann" (Single "P106") "Coach" [Frame "Cyclist"; Frame "Coach"])
    as H.
  destruct H as [H1 H2].
  - vm_compute. reflexivity.
  - by_compute.
  - split; [exact H1|].
    apply (H2 sample_facts_reversed [Frame "Coach"; Frame "Cyclist"]).
    + vm_compute. reflexivity.
    + apply Permutation_swap.
Defined.

(** The classifier on the setting of C3: the existing year 1990 against the
    proposed month March 1990 is SUBSUMED_BY_EXISTING, not
    SUBSUMES_EXISTING. *)
Lemma C3_proposed_month_not_SUBSUMES_EXISTING :
  kb_get "P569" ∈ date_properties sample_matcher
  ∧ _existing_facts sample_matcher "Ann" [kb_get "P569"] false = Ok [Str "1990"]
  ∧ sample_Date (Str "1990") = mkDate 1990 0 0 YEAR
  ∧ sample_Date (Frame "1990-03") = mkDate 1990 3 0 MONTH
  ∧ for_item sample_Date sample_Date_value sample_matcher "Ann"
      (Single (kb_get "P569")) (Frame "1990-03") = Ok SUBSUMED_BY_EXISTING
  ∧ for_item sample_Date sample_Date_value sample_matcher "Ann"
      (Single (kb_get "P569")) (Frame "1990-03") ≠ Ok SUBSUMES_EXISTING.
Proof.
  split_and!; try (vm_compute; reflexivity).
  vm_compute. discriminate.
Qed.

Lemma C3_finer_proposed_date_is_SUBSUMED_BY_EXISTING_witness :
  for_item sample_Date sample_Date_value sample_matcher "Ann"
    (Single (kb_get "P569")) (Frame "1990-03") = Ok SUBSUMED_BY_EXISTING.
Proof.
  apply (C3_finer_proposed_date_is_SUBSUMED_BY_EXISTING sample_Date
    sample_Date_value sample_matcher "Ann" (Str "1990") "1990-03");
    try (vm_compute; reflexivity).
  vm_compute. discriminate.
Defined.

Lemma C6_subsumes_closure_relation_witness :
  subsumes sample_matcher "P19" "Q90-redirect" "Q90" = true
  ∧ subsumes sample_matcher "P69" "University" "College"
    = in_closure sample_extractor "P361" "University" "College"
  ∧ subsumes sample_matcher "P19" "Q142" "Q90"
    = in_closure sample_extractor "P131" "Q142" "Q90"
  ∧ subsumes sample_matcher "P106" "Athlete" "Cyclist"
    = in_closure sample_extractor "P279" "Athlete" "Cyclist"
      || in_closure sample_extractor "P749" "Athlete" "Cyclist".
Proof.
  split_and!.
  - apply (C6_subsumes_closure_relation sample_kb sample_extractor sample_matcher
      "P19" "Q90-redirect" "Q90" sample_matcher_init). reflexivity.
  - apply (C6_subsumes_closure_relation sample_kb sample_extractor sample_matcher
      "P69" "University" "College" sample_matcher_init); [by_compute|reflexivity].
  - apply (C6_subsumes_closure_relation sample_kb sample_extractor sample_matcher
      "P19" "Q142" "Q90" sample_matcher_init); by_compute.
  - apply (C6_subsumes_closure_relation sample_kb sample_extractor sample_matcher
      "P106" "Athlete" "Cyclist" sample_matcher_init); by_compute.
Defined.

Lemma C7_subsuming_proposed_is_SUBSUMES_EXISTING_witness :
  for_item sample_Date sample_Date_value sample_matcher "Ann" (Single "P106")
    (Frame "Athlete") = Ok SUBSUMES_EXISTING.
Proof.
  apply (C7_subsuming_proposed_is_SUBSUMES_EXISTING sample_Date sample_Date_value
    sample_matcher "Ann" (Single "P106") "Athlete"
    [Frame "Cyclist"; Frame "Coach"] "Cyclist").
  - vm_compute. reflexivity.
  - by_compute.
  - unfold rule_NEW. by_compute.
  - intros [Hin|[Hdate _]]; revert Hin || revert Hdate; by_compute.
  - by_compute.
  - vm_compute. reflexivity.
Defined.

Lemma C8_CONFLICT_only_for_unique_single_property_witness :
  (length (prop_list (Single "P26")) = 1
   ∧ first_property (prop_list (Single "P26")) ∈ unique_properties sample_matcher)
  ∧ for_item sample_Date sample_Date_value sample_matcher "Ann" (Single "P26")
      (Frame "Eve") = Ok CONFLICT
  ∧ for_item sample_Date sample_Date_value sample_matcher "Ann"
      (Path ["P19"; "P17"]) (Frame "Q90") = Ok ADDITIONAL.
Proof.
  pose proof (C8_CONFLICT_only_for_unique_single_property sample_Date
    sample_Date_value sample_matcher "Ann" (Single "P26") "Eve" [Frame "Bob"])
    as [Honly Hfall]; [vm_compute; reflexivity|].
  destruct Honly as (Hlen & Hunique & Hnew & Hexact & Hsub & Hsubd);
    [vm_compute; reflexivity|].
  split_and!; [exact Hlen|exact Hunique| |].
  - rewrite (Hfall Hnew Hexact Hsub Hsubd). vm_compute. reflexivity.
  - pose proof (C8_CONFLICT_only_for_unique_single_property sample_Date
      sample_Date_value sample_matcher "Ann" (Path ["P19"; "P17"]) "Q90"
      [Frame "Q142"]) as [_ Hfall']; [vm_compute; reflexivity|].
    rewrite Hfall'; [vm_compute; reflexivity| | | |].
    + unfold rule_NEW. by_compute.
    + intros [Hin|[Hdate _]]; revert Hin || revert Hdate; by_compute.
    + unfold rule_SUBSUMES. rewrite decide_False by by_compute.
      intros (e & [= ->]%list_elem_of_singleton & Hs).
      revert Hs. vm_compute. discriminate.
    + unfold rule_SUBSUMED. rewrite decide_False by by_compute.
      intros (e & [= ->]%list_elem_of_singleton & Hs).
      revert Hs. vm_compute. discriminate.
Defined.

Lemma C9_exemplar_lists_witness :
  let output := add_all sample_additions Output_init in
  (count_of output EXACT = 12 ∧ length (source_items_of output EXACT) ≤ 10)
  ∧ length (source_items_of output NEW) = count_of output NEW.
Proof.
  intros output. split_and!.
  - vm_compute. reflexivity.
  - apply (C9_exemplar_lists sample_additions EXACT). by_compute.
  - apply (C9_exemplar_lists sample_additions NEW). by_compute.
Defined.


(** * Further properties *)

(** ** Errors and precedence of the classifier *)

(** X1: [for_item] fails in two ways only: with an assertion error when the
    proposed value is not a frame, whatever the path, and with an index
    error when a frame is proposed along an empty path; for a frame and a
    non-empty path it returns a match type. *)
Theorem X1_for_item_errors sling_Date Date_value self item prop value :
  ((∀ v, value ≠ Frame v) →
   for_item sling_Date Date_value self item prop value = Raise AssertionError)
  ∧ ((∃ v, value = Frame v) → prop_list prop = [] →
     for_item sling_Date Date_value self item prop value = Raise IndexError)
  ∧ ((∃ v, value = Frame v) → prop_list prop ≠ [] →
     ∃ match_type,
       for_item sling_Date Date_value self item prop value = Ok match_type).
Proof.
  split_and!.
  - intros Hvalue. destruct value; try done. by destruct (Hvalue f).
  - intros [v ->] Hpath. unfold for_item. by rewrite Hpath.
  - intros [v ->] Hpath.
    destruct (prop_list prop) as [|pid path] eqn:Hprop; [done|].
    pose proof (for_item_rules sling_Date Date_value self item prop v) as H.
    rewrite Hprop in H. specialize (H _ eq_refl). cbn zeta in H. naive_solver.
Qed.

Lemma X1_for_item_errors_witness :
  for_item sample_Date sample_Date_value sample_matcher "Ann" (Single "P106") (Int 3)
    = Raise AssertionError
  ∧ for_item sample_Date sample_Date_value sample_matcher "Ann" (Path [])
      (Frame "Athlete") = Raise IndexError
  ∧ ∃ match_type,
      for_item sample_Date sample_Date_value sample_matcher "Ann" (Single "P106")
        (Frame "Athlete") = Ok match_type.
Proof.
  split_and!.
  - by apply (X1_for_item_errors sample_Date sample_Date_value sample_matcher
      "Ann" (Single "P106") (Int 3)).
  - apply (X1_for_item_errors sample_Date sample_Date_value sample_matcher
      "Ann" (Path []) (Frame "Athlete")); [by eexists|done].
  - apply (X1_for_item_errors sample_Date sample_Date_value sample_matcher
      "Ann" (Single "P106") (Frame "Athlete")); [by eexists|done].
Defined.

Lemma removelast_last_Some {A} (fact l : list A) (x : A) :
  l ≠ [] → (removelast fact = l ∧ last fact = Some x) ↔ fact = l ++ [x].
Proof.
  intros Hl. split.
  - intros [Hinit Hlast]. apply last_Some in Hlast as [l' ->].
    rewrite removelast_last in Hinit. by subst.
  - intros ->. by rewrite removelast_last, last_snoc.
Qed.

(** X2: along a non-empty path, a value is among the existing facts
    exactly when the extractor, asked for the first property of the path
    alone, yields the tuple made of the whole path followed by that
    value; tuples of any other shape are left out. *)
Theorem X2_existing_facts_are_the_tuples_of_the_path self item pid path closure :
  ∃ facts,
    _existing_facts self item (pid :: path) closure = Ok facts
    ∧ ∀ v, v ∈ facts
           ↔ (Frame <$> pid :: path) ++ [v]
               ∈ facts_for (extractor self) item [pid] closure.
Proof.
  eexists. split; [done|]. intros v. rewrite list_elem_of_omap. split.
  - intros (fact & Hfact & Hv). case_bool_decide as Hprefix; [|done].
    assert (fact = (Frame <$> pid :: path) ++ [v]) as <-; [|done].
    by apply removelast_last_Some.
  - intros Hfact. eexists. split; [done|].
    rewrite bool_decide_eq_true_2; [apply last_snoc|apply removelast_last].
Qed.

Section ClassifierPrecedence.

Context (sling_Date : value → Date) (Date_value : Date → value).

(** X3: the answer of the classifier depends on the existing facts only as
    a set: an extractor that yields facts with the same elements, in any
    order and any number of copies, gets the same match type. *)
Theorem X3_for_item_depends_on_the_set_of_facts self item prop v other facts facts' :
  _existing_facts self item (prop_list prop) false = Ok facts →
  _existing_facts (with_facts_for self other) item (prop_list prop) false
    = Ok facts' →
  (∀ x, x ∈ facts' ↔ x ∈ facts) →
  for_item sling_Date Date_value (with_facts_for self other) item prop (Frame v)
  = for_item sling_Date Date_value self item prop (Frame v).
Proof.
  intros Hfacts Hfacts' Hsame.
  pose proof (for_item_rules sling_Date Date_value self item prop v facts Hfacts)
    as H.
  pose proof (for_item_rules sling_Date Date_value (with_facts_for self other)
    item prop v facts' Hfacts') as H'.
  cbn zeta in H, H'.
  assert (rule_NEW facts' ↔ rule_NEW facts) as Hnew.
  { unfold rule_NEW. split; intros ->; apply elem_of_nil_inv; intros x Hx;
      apply Hsame in Hx; by apply not_elem_of_nil in Hx. }
  assert (rule_EXACT sling_Date Date_value (with_facts_for self other)
            (prop_list prop) v facts'
          ↔ rule_EXACT sling_Date Date_value self (prop_list prop) v facts)
    as Hexact.
  { unfold rule_EXACT. cbn [date_properties with_facts_for].
    by setoid_rewrite Hsame. }
  assert (rule_SUBSUMES sling_Date (with_facts_for self other) (prop_list prop)
            v facts'
          ↔ rule_SUBSUMES sling_Date self (prop_list prop) v facts) as Hsub.
  { unfold rule_SUBSUMES, subsumes. cbn [date_properties with_facts_for kb
      extractor closure_properties p_subclass p_parent_org in_closure].
    case_decide; by setoid_rewrite Hsame. }
  assert (rule_SUBSUMED sling_Date (with_facts_for self other) (prop_list prop)
            v facts'
          ↔ rule_SUBSUMED sling_Date self (prop_list prop) v facts) as Hsubd.
  { unfold rule_SUBSUMED, subsumes. cbn [date_properties with_facts_for kb
      extractor closure_properties p_subclass p_parent_org in_closure].
    case_decide; by setoid_rewrite Hsame. }
  assert (rule_CONFLICT (with_facts_for self other) (prop_list prop)
          ↔ rule_CONFLICT self (prop_list prop)) as Hconflict by done.
  rewrite Hnew, Hexact, Hsub, Hsubd, Hconflict in H'.
  destruct H as [H|[H|[H|[H|[H|H]]]]], H' as [H'|[H'|[H'|[H'|[H'|H']]]]];
    destruct_and!; try done; congruence.
Qed.

(** X4: for a path that ends in a date-valued property, an existing value
    with the same normalized scalar as the proposed one makes the match
    EXACT, also when the two values are not equal as stored. *)
Theorem X4_same_date_scalar_is_EXACT self item prop v facts e :
  _existing_facts self item (prop_list prop) false = Ok facts →
  terminal_property (prop_list prop) ∈ date_properties self →
  e ∈ facts →
  Date_value (sling_Date e) = Date_value (sling_Date (Frame v)) →
  for_item sling_Date Date_value self item prop (Frame v) = Ok EXACT.
Proof.
  intros Hfacts Hdate He Hscalar.
  pose proof (for_item_rules sling_Date Date_value self item prop v facts Hfacts)
    as H. cbn zeta in H.
  assert (¬ rule_NEW facts)
    by (unfold rule_NEW; intros ->; by apply not_elem_of_nil in He).
  assert (rule_EXACT sling_Date Date_value self (prop_list prop) v facts)
    by (right; eauto).
  naive_solver.
Qed.

(** X5: for a path that ends in a date-valued property, when no existing
    value is EXACT and some existing date is finer than the proposed one,
    the match is SUBSUMES_EXISTING, whether or not another existing date
    is coarser than the proposed one: the check for SUBSUMES_EXISTING comes
    first. *)
Theorem X5_finer_existing_date_is_SUBSUMES_EXISTING self item prop v facts e :
  _existing_facts self item (prop_list prop) false = Ok facts →
  terminal_property (prop_list prop) ∈ date_properties self →
  ¬ rule_EXACT sling_Date Date_value self (prop_list prop) v facts →
  e ∈ facts →
  _finer_date (sling_Date e) (sling_Date (Frame v)) = true →
  for_item sling_Date Date_value self item prop (Frame v) = Ok SUBSUMES_EXISTING.
Proof.
  intros Hfacts Hdate Hexact He Hfiner.
  pose proof (for_item_rules sling_Date Date_value self item prop v facts Hfacts)
    as H. cbn zeta in H.
  assert (¬ rule_NEW facts)
    by (unfold rule_NEW; intros ->; by apply not_elem_of_nil in He).
  assert (rule_SUBSUMES sling_Date self (prop_list prop) v facts).
  { unfold rule_SUBSUMES. rewrite decide_True by done. eauto. }
  naive_solver.
Qed.

(** X6: for a path that ends in a property that is not date-valued, when
    none of the existing values is a frame (numbers and strings only), the
    match is CONFLICT or ADDITIONAL: [subsumes] is never asked, so neither
    SUBSUMES_EXISTING nor SUBSUMED_BY_EXISTING nor EXACT can come out. *)
Theorem X6_no_subsumption_without_existing_frames self item prop v facts :
  _existing_facts self item (prop_list prop) false = Ok facts →
  terminal_property (prop_list prop) ∉ date_properties self →
  facts ≠ [] →
  (∀ e, Frame e ∉ facts) →
  for_item sling_Date Date_value self item prop (Frame v)
  = Ok (if bool_decide (length (prop_list prop) = 1
                        ∧ first_property (prop_list prop) ∈ unique_properties self)
        then CONFLICT else ADDITIONAL).
Proof.
  intros Hfacts Hdate Hne Hframes.
  pose proof (for_item_rules sling_Date Date_value self item prop v facts Hfacts)
    as H. cbn zeta in H.
  assert (¬ rule_EXACT sling_Date Date_value self (prop_list prop) v facts)
    by (intros [?|[? _]]; [by eapply Hframes|done]).
  assert (¬ rule_SUBSUMES sling_Date self (prop_list prop) v facts).
  { unfold rule_SUBSUMES. rewrite decide_False by done.
    intros (e & He & _). by eapply Hframes. }
  assert (¬ rule_SUBSUMED sling_Date self (prop_list prop) v facts).
  { unfold rule_SUBSUMED. rewrite decide_False by done.
    intros (e & He & _). by eapply Hframes. }
  unfold rule_NEW, rule_CONFLICT in H. case_bool_decide; naive_solver.
Qed.

(** X7: for a path that ends in a property that is not date-valued, a
    proposed frame that is not itself among the existing facts but
    resolves to the same frame as one of them (a redirect of it) is
    matched as SUBSUMES_EXISTING, not as EXACT. *)
Theorem X7_redirect_of_existing_is_SUBSUMES_EXISTING self item prop v facts e :
  _existing_facts self item (prop_list prop) false = Ok facts →
  terminal_property (prop_list prop) ∉ date_properties self →
  Frame v ∉ facts →
  Frame e ∈ facts →
  resolve (kb self) v = resolve (kb self) e →
  for_item sling_Date Date_value self item prop (Frame v) = Ok SUBSUMES_EXISTING.
Proof.
  intros Hfacts Hdate Hv He Hresolve.
  pose proof (for_item_rules sling_Date Date_value self item prop v facts Hfacts)
    as H. cbn zeta in H.
  assert (¬ rule_NEW facts)
    by (unfold rule_NEW; intros ->; by apply not_elem_of_nil in He).
  assert (¬ rule_EXACT sling_Date Date_value self (prop_list prop) v facts)
    by (intros [?|[? _]]; done).
  assert (rule_SUBSUMES sling_Date self (prop_list prop) v facts).
  { unfold rule_SUBSUMES. rewrite decide_False by done. exists e. split; [done|].
    unfold subsumes. by rewrite bool_decide_eq_true_2. }
  naive_solver.
Qed.

End ClassifierPrecedence.

Lemma X3_for_item_depends_on_the_set_of_facts_witness :
  for_item sample_Date sample_Date_value
    (with_facts_for sample_matcher sample_facts_doubled) "Ann" (Single "P106")
    (Frame "Athlete")
  = for_item sample_Date sample_Date_value sample_matcher "Ann" (Single "P106")
      (Frame "Athlete").
Proof.
  apply (X3_for_item_depends_on_the_set_of_facts sample_Date sample_Date_value
    sample_matcher "Ann" (Single "P106") "Athlete" sample_facts_doubled
    [Frame "Cyclist"; Frame "Coach"]
    [Frame "Cyclist"; Frame "Coach"; Frame "Coach"; Frame "Cyclist"]).
  - vm_compute. reflexivity.
  - vm_compute. reflexivity.
  - intros x. rewrite !elem_of_cons, elem_of_nil. tauto.
Defined.

Lemma X4_same_date_scalar_is_EXACT_witness :
  for_item sample_Date sample_Date_value sample_matcher "Ann" (Single "P569")
    (Frame "1990") = Ok EXACT.
Proof.
  apply (X4_same_date_scalar_is_EXACT sample_Date sample_Date_value sample_matcher
    "Ann" (Single "P569") "1990" [Str "1990"] (Str "1990")).
  - vm_compute. reflexivity.
  - by_compute.
  - by_compute.
  - vm_compute. reflexivity.
Defined.

Lemma X5_finer_existing_date_is_SUBSUMES_EXISTING_witness :
  for_item sample_Date sample_Date_value sample_matcher "Ann" (Single "P569")
    (Frame "1990s") = Ok SUBSUMES_EXISTING.
Proof.
  apply (X5_finer_existing_date_is_SUBSUMES_EXISTING sample_Date sample_Date_value
    sample_matcher "Ann" (Single "P569") "1990s" [Str "1990"] (Str "1990")).
  - vm_compute. reflexivity.
  - by_compute.
  - intros [Hin|(_ & e & [= ->]%list_elem_of_singleton & Hscalar)].
    + revert Hin. by_compute.
    + revert Hscalar. vm_compute. discriminate.
  - by_compute.
  - vm_compute. reflexivity.
Defined.

Lemma X6_no_subsumption_without_existing_frames_witness :
  for_item sample_Date sample_Date_value
    (with_facts_for sample_matcher sample_facts_strings) "Ann" (Single "P106")
    (Frame "Athlete") = Ok ADDITIONAL
  ∧ for_item sample_Date sample_Date_value
      (with_facts_for sample_matcher sample_facts_strings) "Ann" (Single "P26")
      (Frame "Bob") = Ok CONFLICT.
Proof.
  split.
  - rewrite (X6_no_subsumption_without_existing_frames sample_Date
      sample_Date_value (with_facts_for sample_matcher sample_facts_strings)
      "Ann" (Single "P106") "Athlete" [Str "cyclist"]).
    + vm_compute. reflexivity.
    + vm_compute. reflexivity.
    + by_compute.
    + done.
    + intros e. by_compute.
  - rewrite (X6_no_subsumption_without_existing_frames sample_Date
      sample_Date_value (with_facts_for sample_matcher sample_facts_strings)
      "Ann" (Single "P26") "Bob" [Str "Bob"]).
    + vm_compute. reflexivity.
    + vm_compute. reflexivity.
    + by_compute.
    + done.
    + intros e. by_compute.
Defined.

Lemma X7_redirect_of_existing_is_SUBSUMES_EXISTING_witness :
  for_item sample_Date sample_Date_value sample_matcher "Ann" (Single "P19")
    (Frame "Q90-redirect") = Ok SUBSUMES_EXISTING.
Proof.
  apply (X7_redirect_of_existing_is_SUBSUMES_EXISTING sample_Date sample_Date_value
    sample_matcher "Ann" (Single "P19") "Q90-redirect" [Frame "Q90"] "Q90").
  - vm_compute. reflexivity.
  - by_compute.
  - by_compute.
  - by_compute.
  - vm_compute. reflexivity.
Defined.

(** ** The histogram *)

Lemma add_all_snoc additions a output :
  add_all (additions ++ [a]) output = add (add_all additions output) a.1 a.2.
Proof. unfold add_all. by rewrite foldl_app. Qed.

Lemma items_added_snoc additions a t :
  items_added (additions ++ [a]) t
  = items_added additions t ++ (if decide (a.1 = t) then [a.2] else []).
Proof.
  unfold items_added. rewrite filter_app, fmap_app. f_equal.
  rewrite filter_cons, filter_nil. by case_decide.
Qed.

Lemma source_items_of_add_all additions t :
  source_items_of (add_all additions Output_init) t
  = if decide (t ∈ TYPES_WITH_EXEMPLARS_ONLY)
    then take MAX_SOURCE_ITEMS (items_added additions t)
    else items_added additions t.
Proof.
  induction additions as [|a additions IH] using rev_ind.
  { unfold source_items_of. cbn. rewrite lookup_empty. by case_decide. }
  rewrite add_all_snoc, source_items_of_add, items_added_snoc, IH.
  destruct (decide (a.1 = t)) as [Heq|Hne]; [|by rewrite app_nil_r].
  destruct (decide (t ∈ TYPES_WITH_EXEMPLARS_ONLY)) as [Hcap|Hall].
  - destruct (decide (MAX_SOURCE_ITEMS ≤ length (items_added additions t)))
      as [Hfull|Hroom].
    + rewrite decide_True.
      * by rewrite take_app_le.
      * rewrite Heq. split; [done|]. rewrite length_take. lia.
    + rewrite decide_False by (rewrite length_take; lia).
      rewrite !take_ge; [done|rewrite length_app; cbn; lia|lia].
  - rewrite decide_False; [done|]. rewrite Heq. tauto.
Qed.

(** X8: after any sequence of additions to a fresh output, the source
    items kept for EXACT, CONFLICT and SUBSUMES_EXISTING are the first ten
    that were added with that match type, in the order of addition, and
    the source items kept for the other match types are all that were
    added with it, in that order. *)
Theorem X8_source_items_are_the_first_added additions t :
  source_items_of (add_all additions Output_init) t
  = if decide (t ∈ TYPES_WITH_EXEMPLARS_ONLY)
    then take MAX_SOURCE_ITEMS (items_added additions t)
    else items_added additions t.
Proof. apply source_items_of_add_all. Qed.

Lemma lookup_counts_add output match_type source_item t :
  counts (add output match_type source_item) !! t
  = if decide (match_type = t) then Some (S (count_of output t))
    else counts output !! t.
Proof.
  unfold add, count_of, defaultdict_get.
  destruct (counts output !! match_type) as [n|] eqn:Hn;
    repeat case_bool_decide;
    destruct (source_items output !! match_type) as [l|] eqn:Hl;
    repeat case_bool_decide; cbn [counts];
    (case_decide as Heq;
     [ subst t; rewrite lookup_insert_eq, ?Hn; cbn; f_equal; lia
     | rewrite !lookup_insert_ne by done; done ]).
Qed.

Lemma is_Some_source_items_add output match_type source_item t :
  is_Some (source_items (add output match_type source_item) !! t)
  ↔ match_type = t ∨ is_Some (source_items output !! t).
Proof.
  unfold add, defaultdict_get.
  destruct (counts output !! match_type) as [n|] eqn:Hn;
    destruct (source_items output !! match_type) as [l|] eqn:Hl;
    repeat case_bool_decide; cbn [source_items];
    (destruct (decide (match_type = t)) as [<-|Hne];
     [ rewrite ?lookup_insert_eq, ?Hl; naive_solver
     | rewrite ?lookup_insert_ne by done; naive_solver ]).
Qed.

(** X9: after any sequence of additions to a fresh output, a match type
    has an entry among the counts exactly when it has an entry among the
    source items, and exactly when it was added at least once; the count
    of such a type is positive and its source items are not empty. *)
Theorem X9_counted_types_are_the_added_types additions t :
  let output := add_all additions Output_init in
  (is_Some (counts output !! t) ↔ ∃ item, (t, item) ∈ additions)
  ∧ (is_Some (source_items output !! t) ↔ ∃ item, (t, item) ∈ additions)
  ∧ ((∃ item, (t, item) ∈ additions) →
     0 < count_of output t ∧ source_items_of output t ≠ []).
Proof.
  intros output. subst output.
  assert ((is_Some (counts (add_all additions Output_init) !! t)
           ↔ ∃ item, (t, item) ∈ additions)
          ∧ (is_Some (source_items (add_all additions Output_init) !! t)
             ↔ ∃ item, (t, item) ∈ additions)) as [Hcounts Hitems].
  { induction additions as [|[t' item'] additions [IHc IHs]] using rev_ind.
    { cbn. rewrite !lookup_empty. split; (split; [by intros [? ?]|]);
        intros [? Hin]; by apply not_elem_of_nil in Hin. }
    rewrite add_all_snoc, lookup_counts_add, is_Some_source_items_add. cbn [fst snd].
    setoid_rewrite elem_of_app. setoid_rewrite list_elem_of_singleton.
    split.
    - case_decide as Heq; [subst; split; eauto|].
      rewrite IHc. naive_solver.
    - rewrite IHs. naive_solver. }
  split_and!; [done|done|]. intros Hadded.
  apply Hcounts in Hadded as Hc. apply Hitems in Hadded as Hs.
  destruct Hadded as [item Hin].
  assert (items_added additions t ≠ []) as Hne.
  { unfold items_added. intros Hnil%fmap_nil_inv.
    assert ((t, item) ∈ filter (λ a, a.1 = t) additions) as Hf
      by (by apply list_elem_of_filter).
    rewrite Hnil in Hf. by apply not_elem_of_nil in Hf. }
  split.
  - rewrite count_of_add_all.
    assert (length (filter (λ a, a.1 = t) additions) ≠ 0); [|lia].
    intros Hlen%nil_length_inv. apply Hne. unfold items_added. by rewrite Hlen.
  - rewrite source_items_of_add_all.
    case_decide; [|done]. unfold MAX_SOURCE_ITEMS.
    destruct (items_added additions t); done.
Qed.

Lemma X9_counted_types_are_the_added_types_witness :
  let output := add_all sample_additions Output_init in
  is_Some (counts output !! NEW)
  ∧ ¬ is_Some (source_items output !! CONFLICT)
  ∧ 0 < count_of output EXACT ∧ source_items_of output EXACT ≠ [].
Proof.
  intros output. subst output.
  destruct (X9_counted_types_are_the_added_types sample_additions NEW)
    as (Hnew & _ & _).
  destruct (X9_counted_types_are_the_added_types sample_additions CONFLICT)
    as (_ & Hconflict & _).
  destruct (X9_counted_types_are_the_added_types sample_additions EXACT)
    as (_ & _ & Hexact).
  split_and!.
  - apply Hnew. exists "Cid". by_compute.
  - rewrite Hconflict. intros [item Hin]. revert Hin. by_compute.
  - apply Hexact. exists "Ann". by_compute.
  - apply Hexact. exists "Ann". by_compute.
Defined.

(** ** The aggregator over items *)

Lemma for_items_loop_zip sling_Date Date_value self items prop value output :
  match mapM (λ item, for_item sling_Date Date_value self item prop value) items with
  | Ok match_types =>
      length match_types = length items
      ∧ for_items_loop sling_Date Date_value self items prop value output
        = Ok (add_all (zip match_types items) output)
  | Raise e =>
      for_items_loop sling_Date Date_value self items prop value output = Raise e
  end.
Proof.
  revert output. induction items as [|item items IH]; intros output; [done|].
  cbn [mapM for_items_loop].
  destruct (for_item _ _ _ item prop value) as [match_type|e];
    cbn [mbind result_bind rbind]; [|done].
  specialize (IH (add output match_type item)).
  destruct (mapM _ items) as [match_types|e]; cbn [mbind result_bind rbind];
    [|done].
  destruct IH as [Hlen ->]. cbn. by rewrite Hlen.
Qed.

Lemma filter_by_type_total (additions : list (FactMatchType * frame)) :
  length (filter (λ a, a.1 = NEW) additions)
  + length (filter (λ a, a.1 = EXACT) additions)
  + length (filter (λ a, a.1 = SUBSUMES_EXISTING) additions)
  + length (filter (λ a, a.1 = SUBSUMED_BY_EXISTING) additions)
  + length (filter (λ a, a.1 = CONFLICT) additions)
  + length (filter (λ a, a.1 = ADDITIONAL) additions)
  = length additions.
Proof.
  induction additions as [|[t item] additions IH]; [done|].
  rewrite !filter_cons. cbn [fst length].
  destruct t; repeat case_decide; try done; cbn [length]; lia.
Qed.

(** X10: when [for_items] returns a histogram, every item has been
    counted once, under the match type that [for_item] gives it: the count
    of a match type is the number of items with that match type, and the
    six counts add up to the number of items. *)
Theorem X10_for_items_counts_every_item sling_Date Date_value self items prop value
    stats :
  for_items sling_Date Date_value self items prop value = Ok stats →
  (∀ t, count_of stats t
        = length (filter (λ item,
                    for_item sling_Date Date_value self item prop value = Ok t)
                    items))
  ∧ count_of stats NEW + count_of stats EXACT + count_of stats SUBSUMES_EXISTING
    + count_of stats SUBSUMED_BY_EXISTING + count_of stats CONFLICT
    + count_of stats ADDITIONAL
    = length items.
Proof.
  unfold for_items. intros Hstats.
  pose proof (for_items_loop_zip sling_Date Date_value self items prop value
    Output_init) as H.
  destruct (mapM _ items) as [match_types|e] eqn:Hmap; [|congruence].
  destruct H as [Hlen H]. rewrite H in Hstats. injection Hstats as <-.
  assert (∀ t, count_of (add_all (zip match_types items) Output_init) t
               = length (filter (λ a, a.1 = t) (zip match_types items))) as Hcount.
  { intros t. rewrite count_of_add_all. unfold count_of. cbn.
    by rewrite lookup_empty. }
  split.
  - intros t. rewrite Hcount. clear H Hcount Hlen.
    revert match_types Hmap. induction items as [|item items IH];
      intros match_types Hmap.
    { by injection Hmap as <-. }
    cbn [mapM] in Hmap.
    destruct (for_item _ _ _ item prop value) as [match_type|e] eqn:Hitem;
      cbn [mbind result_bind rbind] in Hmap; [|done].
    destruct (mapM _ items) as [match_types'|e]; cbn [mbind result_bind rbind] in Hmap;
      [|done].
    injection Hmap as <-. cbn [zip zip_with]. rewrite !filter_cons. cbn [fst].
    rewrite Hitem. specialize (IH match_types' eq_refl).
    repeat case_decide; cbn [length]; try congruence.
  - rewrite !Hcount, filter_by_type_total, length_zip. lia.
Qed.

Lemma X10_for_items_counts_every_item_witness :
  ∃ stats,
    for_items sample_Date sample_Date_value sample_matcher ["Ann"; "Cid"; "Ann"]
      (Single "P106") (Frame "Athlete") = Ok stats
    ∧ count_of stats SUBSUMES_EXISTING = 2
    ∧ count_of stats NEW + count_of stats EXACT + count_of stats SUBSUMES_EXISTING
      + count_of stats SUBSUMED_BY_EXISTING + count_of stats CONFLICT
      + count_of stats ADDITIONAL
      = 3.
Proof.
  eexists. split; [vm_compute; reflexivity|].
  match goal with
  | |- context [count_of ?stats SUBSUMES_EXISTING] =>
      destruct (X10_for_items_counts_every_item sample_Date sample_Date_value
        sample_matcher ["Ann"; "Cid"; "Ann"] (Single "P106") (Frame "Athlete")
        stats) as [Hcount Htotal]; [vm_compute; reflexivity|]
  end.
  split; [|exact Htotal].
  rewrite Hcount. vm_compute. reflexivity.
Defined.

Lemma for_item_accepts sling_Date Date_value self item prop v :
  prop_list prop ≠ [] →
  ∃ match_type, for_item sling_Date Date_value self item prop (Frame v) = Ok match_type.
Proof.
  intros Hpath. destruct (prop_list prop) as [|pid path] eqn:Hprop; [done|].
  pose proof (for_item_rules sling_Date Date_value self item prop v) as H.
  rewrite Hprop in H. specialize (H _ eq_refl). cbn zeta in H. naive_solver.
Qed.

Lemma for_items_result sling_Date Date_value self items prop value :
  for_items sling_Date Date_value self [] prop value = Ok Output_init
  ∧ (items ≠ [] → (∀ v, value ≠ Frame v) →
     for_items sling_Date Date_value self items prop value = Raise AssertionError)
  ∧ (items ≠ [] → (∃ v, value = Frame v) → prop_list prop = [] →
     for_items sling_Date Date_value self items prop value = Raise IndexError)
  ∧ ((∃ v, value = Frame v) → prop_list prop ≠ [] →
     ∃ stats, for_items sling_Date Date_value self items prop value = Ok stats).
Proof.
  unfold for_items. split_and!; [done| | |].
  - intros Hitems Hvalue. destruct items as [|item items]; [done|].
    cbn [for_items_loop]. destruct value; try done. by destruct (Hvalue f).
  - intros Hitems [v ->] Hpath. destruct items as [|item items]; [done|].
    cbn [for_items_loop]. unfold for_item. by rewrite Hpath.
  - intros [v ->] Hpath. generalize Output_init.
    induction items as [|item items IH]; intros output; [by eexists|].
    cbn [for_items_loop].
    destruct (for_item_accepts sling_Date Date_value self item prop v Hpath)
      as [match_type ->].
    cbn [mbind result_bind rbind]. apply IH.
Qed.

(** X11: over no items [for_items] returns the empty histogram, whatever
    is proposed; over at least one item it fails like [for_item] does, with
    an assertion error for a value that is not a frame and with an index
    error for a frame along an empty path; for a frame and a non-empty
    path it returns a histogram. *)
Theorem X11_for_items_errors sling_Date Date_value self items prop value :
  for_items sling_Date Date_value self [] prop value = Ok Output_init
  ∧ (items ≠ [] → (∀ v, value ≠ Frame v) →
     for_items sling_Date Date_value self items prop value = Raise AssertionError)
  ∧ (items ≠ [] → (∃ v, value = Frame v) → prop_list prop = [] →
     for_items sling_Date Date_value self items prop value = Raise IndexError)
  ∧ ((∃ v, value = Frame v) → prop_list prop ≠ [] →
     ∃ stats, for_items sling_Date Date_value self items prop value = Ok stats).
Proof. apply for_items_result. Qed.

Lemma X11_for_items_errors_witness :
  for_items sample_Date sample_Date_value sample_matcher ["Ann"] (Single "P106")
    (Int 3) = Raise AssertionError
  ∧ for_items sample_Date sample_Date_value sample_matcher ["Ann"] (Path [])
      (Frame "Athlete") = Raise IndexError
  ∧ ∃ stats,
      for_items sample_Date sample_Date_value sample_matcher ["Ann"; "Cid"]
        (Single "P106") (Frame "Athlete") = Ok stats.
Proof.
  split_and!.
  - by apply (X11_for_items_errors sample_Date sample_Date_value sample_matcher
      ["Ann"] (Single "P106") (Int 3)).
  - apply (X11_for_items_errors sample_Date sample_Date_value sample_matcher
      ["Ann"] (Path []) (Frame "Athlete")); [done|by eexists|done].
  - apply (X11_for_items_errors sample_Date sample_Date_value sample_matcher
      ["Ann"; "Cid"] (Single "P106") (Frame "Athlete")); [by eexists|done].
Defined.

(** ** The statistics of a record *)

Lemma mapM_Ok_Forall2 {A B} (f : A → result B) (l : list A) (ys : list B) :
  mapM f l = Ok ys ↔ Forall2 (λ x y, f x = Ok y) l ys.
Proof.
  revert ys. induction l as [|x l IH]; intros ys; cbn [mapM].
  { split; [intros [= <-]; constructor|by intros ->%Forall2_nil_inv_l]. }
  split.
  - destruct (f x) as [y|e] eqn:Hx; cbn [mbind result_bind rbind]; [|done].
    destruct (mapM f l) as [ys'|e] eqn:Hl; cbn [mbind result_bind rbind]; [|done].
    intros [= <-]. constructor; [done|]. by apply IH.
  - intros (y & ys' & Hx & Hl & ->)%Forall2_cons_inv_l.
    rewrite Hx. cbn [mbind result_bind rbind].
    apply IH in Hl. by rewrite Hl.
Qed.

Lemma mapM_is_Ok {A B} (f : A → result B) (l : list A) :
  (∃ ys, mapM f l = Ok ys) ↔ ∀ x, x ∈ l → ∃ y, f x = Ok y.
Proof.
  induction l as [|x l IH]; cbn [mapM].
  { split; [intros _ x Hx; by apply not_elem_of_nil in Hx|by eexists]. }
  split.
  - intros [ys Hys]. destruct (f x) as [y|e] eqn:Hx;
      cbn [mbind result_bind rbind] in Hys; [|done].
    destruct (mapM f l) as [ys'|e] eqn:Hl; cbn [mbind result_bind rbind] in Hys;
      [|done].
    intros x' [->|Hin]%elem_of_cons; [by eexists|].
    apply IH; [by eexists|done].
  - intros Hall. destruct (Hall x) as [y ->]; [by left|].
    cbn [mbind result_bind rbind].
    destruct (proj2 IH) as [ys ->]; [intros x' Hx'; apply Hall; by right|].
    by eexists.
Qed.

Lemma for_parses_uncached_eq sling_Date Date_value self category :
  for_parses sling_Date Date_value self category
  = for_parses_uncached sling_Date Date_value self category.
Proof.
  pose proof (for_parses_st_spec sling_Date Date_value self (members category)
    category eq_refl) as H.
  unfold for_parses.
  destruct (for_parses_uncached _ _ _ category) as [output|e].
  - by destruct H as (st & -> & _).
  - by rewrite H.
Qed.

(** X12: the result of [for_parses] has the shape of the record: one list
    per parse, in order, holding one histogram per span of that parse. *)
Theorem X12_for_parses_shape sling_Date Date_value self category output :
  for_parses sling_Date Date_value self category = Ok output →
  Forall2 (λ parse parse_stats, length parse_stats = length (spans parse))
    (parses category) output.
Proof.
  rewrite for_parses_uncached_eq. unfold for_parses_uncached.
  intros Hout%mapM_Ok_Forall2.
  eapply Forall2_impl; [done|]. cbn beta.
  intros parse parse_stats Hparse%mapM_Ok_Forall2.
  symmetry. by eapply Forall2_length.
Qed.

Lemma X12_for_parses_shape_witness :
  ∃ output,
    for_parses sample_Date sample_Date_value sample_matcher sample_cyclists
      = Ok output
    ∧ Forall2 (λ parse parse_stats, length parse_stats = length (spans parse))
        (parses sample_cyclists) output.
Proof.
  eexists. split; [vm_compute; reflexivity|].
  apply (X12_for_parses_shape sample_Date sample_Date_value sample_matcher).
  vm_compute. reflexivity.
Defined.

(** X13: [for_parses] returns statistics exactly when the record has no
    members or every span of every parse proposes a frame along a
    non-empty path; with members, one span that proposes something else
    makes the whole call fail. *)
Theorem X13_for_parses_succeeds_iff sling_Date Date_value self category :
  (∃ output, for_parses sling_Date Date_value self category = Ok output)
  ↔ members category = []
    ∨ ∀ parse span, parse ∈ parses category → span ∈ spans parse →
                    span_accepted span.
Proof.
  rewrite for_parses_uncached_eq. unfold for_parses_uncached.
  rewrite mapM_is_Ok. setoid_rewrite mapM_is_Ok.
  destruct (members category) as [|item items] eqn:Hmembers.
  { split; [by left|]. intros _ parse Hparse span Hspan. by eexists. }
  split.
  - intros Hall. right. intros parse span Hparse Hspan.
    destruct (Hall parse Hparse span Hspan) as [stats Hstats].
    pose proof (for_items_result sling_Date Date_value self (item :: items)
      (Path (pids span)) (qid span)) as (_ & Hassert & Hindex & _).
    unfold span_accepted. cbn [prop_list] in *.
    destruct (qid span) as [v| |] eqn:Hqid.
    + split; [by eexists|]. intros Hpids.
      rewrite Hindex in Hstats; [done|done|by eexists|done].
    + rewrite Hassert in Hstats; done.
    + rewrite Hassert in Hstats; done.
  - intros [?|Hall]; [done|]. intros parse Hparse span Hspan.
    destruct (Hall parse span Hparse Hspan) as [Hframe Hpids].
    by apply for_items_result.
Qed.

Lemma X13_for_parses_succeeds_iff_witness :
  (∃ output,
     for_parses sample_Date sample_Date_value sample_matcher sample_cyclists
       = Ok output)
  ∧ ¬ (∃ output,
         for_parses sample_Date sample_Date_value sample_matcher sample_rejected
           = Ok output).
Proof.
  split.
  - apply X13_for_parses_succeeds_iff. right. intros parse span.
    unfold sample_cyclists. cbn [parses].
    rewrite !elem_of_cons, elem_of_nil.
    intros [->|[->|[]]]; cbn [spans]; rewrite ?elem_of_cons, elem_of_nil;
      intros Hspan; destruct_or!; subst; try done; (split; [by eexists|done]).
  - rewrite X13_for_parses_succeeds_iff. intros [Hmembers|Hall]; [done|].
    destruct (Hall {| spans := [sample_span_athlete;
                                {| pids := ["P106"]; qid := Int 3 |}] |}
                {| pids := ["P106"]; qid := Int 3 |}) as [[v Hv] _];
      [by left|by right; left|done].
Defined.

(** ** The property sets of the constructor *)

Lemma any_unique_constraint_Ok kb0 cs b :
  any_unique_constraint kb0 cs = Ok b →
  Forall (λ c, ∃ f, c = Frame f) cs
  ∧ (b = true ↔
     ∃ c, Frame c ∈ cs
          ∧ (c = kb_get "Q19474404"
             ∨ slot_get kb0 c (kb_get "is") = Some (Frame (kb_get "Q19474404")))).
Proof.
  revert b. induction cs as [|c cs IH]; intros b; cbn [any_unique_constraint].
  { intros [= <-]. split; [constructor|]. split; [done|].
    intros (c & Hc & _). by apply not_elem_of_nil in Hc. }
  destruct c as [f| |]; cbn [is_unique_constraint mbind result_bind rbind]; try done.
  destruct (any_unique_constraint kb0 cs) as [b'|e];
    cbn [mbind result_bind rbind mret result_ret]; [|done].
  intros [= <-]. destruct (IH b' eq_refl) as [Hall Hb']. split.
  { constructor; [by eexists|done]. }
  rewrite orb_true_iff, Hb', orb_true_iff, !bool_decide_eq_true.
  setoid_rewrite elem_of_cons. split.
  - intros [Hf|(c & Hc & Hu)]; [exists f|exists c]; naive_solver.
  - intros (c & [[= ->]|Hc] & Hu); [by left|right; eauto].
Qed.

Lemma any_unique_constraint_frames kb0 cs :
  Forall (λ c, ∃ f, c = Frame f) cs → ∃ b, any_unique_constraint kb0 cs = Ok b.
Proof.
  induction 1 as [|c cs [f ->] _ [b IH]]; cbn [any_unique_constraint]; [by eexists|].
  cbn [is_unique_constraint mbind result_bind rbind]. rewrite IH. by eexists.
Qed.

Lemma existsb_is_location_slot kb0 p :
  existsb (is_location_slot kb0) (slots kb0 p) = true
  ↔ ∃ v, (kb_get "P1647", Frame v) ∈ slots kb0 p ∧ resolve kb0 v = kb_get "P276".
Proof.
  rewrite existsb_elem_of. unfold is_location_slot. split.
  - intros ([role [v| |]] & Hin & Hslot); cbn [fst snd] in Hslot;
      apply andb_true_iff in Hslot as [Hrole Hv]; try done.
    apply bool_decide_eq_true in Hrole, Hv. subst role. eauto.
  - intros (v & Hin & Hv). eexists. split; [done|]. cbn [fst snd].
    by rewrite !bool_decide_eq_true_2.
Qed.

Lemma collect_property_Ok kb0 unique dates locations prop unique' dates' locations' :
  collect_property kb0 (unique, dates, locations) prop
    = Ok (unique', dates', locations') →
  ∃ p, prop = Frame p
    ∧ Forall (λ c, ∃ f, c = Frame f) (slot_values kb0 p (kb_get "P2302"))
    ∧ (∀ q, q ∈ unique' ↔ q ∈ unique ∨ (q = p ∧ declared_unique kb0 p))
    ∧ (∀ q, q ∈ dates' ↔ q ∈ dates ∨ (q = p ∧ declared_date kb0 p))
    ∧ (∀ q, q ∈ locations' ↔ q ∈ locations ∨ (q = p ∧ declared_location kb0 p)).
Proof.
  destruct prop as [p| |]; cbn [collect_property]; try done.
  destruct (any_unique_constraint kb0 _) as [b|e] eqn:Hb;
    cbn [mbind result_bind rbind mret result_ret]; [|done].
  apply any_unique_constraint_Ok in Hb as [Hframes Hb].
  intros [= <- <- <-]. exists p. split_and!; [done|done| | |].
  - intros q. unfold declared_unique. rewrite <- Hb.
    destruct b; set_solver.
  - intros q. unfold declared_date. case_bool_decide; set_solver.
  - intros q. unfold declared_location. rewrite <- existsb_is_location_slot.
    case_bool_decide; cbn [andb]; [|set_solver].
    destruct (existsb _ _); set_solver.
Qed.

Lemma collect_properties_Ok kb0 props unique dates locations unique' dates' locations' :
  collect_properties kb0 (unique, dates, locations) props
    = Ok (unique', dates', locations') →
  Forall (readable_property kb0) props
  ∧ (∀ q, q ∈ unique' ↔ q ∈ unique ∨ (Frame q ∈ props ∧ declared_unique kb0 q))
  ∧ (∀ q, q ∈ dates' ↔ q ∈ dates ∨ (Frame q ∈ props ∧ declared_date kb0 q))
  ∧ (∀ q, q ∈ locations'
          ↔ q ∈ locations ∨ (Frame q ∈ props ∧ declared_location kb0 q)).
Proof.
  revert unique dates locations.
  induction props as [|prop props IH]; intros unique dates locations;
    cbn [collect_properties].
  { intros [= <- <- <-]. split; [constructor|].
    split_and!; intros q; rewrite elem_of_nil; tauto. }
  destruct (collect_property kb0 _ prop) as [[[u1 d1] l1]|e] eqn:Hprop;
    cbn [mbind result_bind rbind]; [|done].
  apply collect_property_Ok in Hprop as (p & -> & Hframes & Hu & Hd & Hl).
  intros (Hall & Hu' & Hd' & Hl')%IH. split.
  { constructor; [by exists p|done]. }
  split_and!; intros q; rewrite ?Hu', ?Hd', ?Hl', ?Hu, ?Hd, ?Hl, elem_of_cons;
    naive_solver.
Qed.

Lemma collect_properties_readable kb0 props sets :
  Forall (readable_property kb0) props →
  ∃ sets', collect_properties kb0 sets props = Ok sets'.
Proof.
  intros Hall. revert sets.
  induction Hall as [|prop props (p & -> & Hframes) _ IH]; intros [[u d] l];
    cbn [collect_properties collect_property]; [by eexists|].
  destruct (any_unique_constraint_frames kb0 _ Hframes) as [b ->].
  cbn [mbind result_bind rbind mret result_ret]. apply IH.
Qed.

Lemma FactMatcher_init_sets kb0 extractor0 self :
  FactMatcher_init kb0 extractor0 = Ok self →
  (∀ p, p ∈ unique_properties self
        ↔ Frame p ∈ role_values kb0 ∧ declared_unique kb0 p)
  ∧ (∀ p, p ∈ date_properties self
          ↔ Frame p ∈ role_values kb0 ∧ declared_date kb0 p)
  ∧ (∀ p, p ∈ location_properties self
          ↔ Frame p ∈ role_values kb0 ∧ declared_location kb0 p).
Proof.
  unfold FactMatcher_init. fold (role_values kb0).
  destruct (collect_properties _ _ _) as [[[unique dates] locations]|e] eqn:Hsets;
    cbn [mbind result_bind rbind mret result_ret]; [|done].
  apply collect_properties_Ok in Hsets as (_ & Hu & Hd & Hl).
  intros [= <-]. cbn [unique_properties date_properties location_properties].
  split_and!; intros p; rewrite ?Hu, ?Hd, ?Hl; set_solver.
Qed.

(** X14: in a matcher that the constructor returns, the unique-valued,
    date-valued and location-valued properties are exactly the role values
    of /w/entity that are frames with, in turn, a constraint (P2302) that
    is the single-value constraint or carries it in its [is] slot; a
    target that is /w/time; a target that is /w/item together with a
    subproperty-of (P1647) slot whose value resolves to the location
    property (P276). *)
Theorem X14_property_sets_of_the_constructor kb0 extractor0 self :
  FactMatcher_init kb0 extractor0 = Ok self →
  (∀ p, p ∈ unique_properties self
        ↔ Frame p ∈ role_values kb0 ∧ declared_unique kb0 p)
  ∧ (∀ p, p ∈ date_properties self
          ↔ Frame p ∈ role_values kb0 ∧ declared_date kb0 p)
  ∧ (∀ p, p ∈ location_properties self
          ↔ Frame p ∈ role_values kb0 ∧ declared_location kb0 p).
Proof. apply FactMatcher_init_sets. Qed.

(** X15: no property of a matcher that the constructor returns is both
    date-valued and location-valued, and a property other than educated-at
    (P69) has a closure relation exactly when it is location-valued. *)
Theorem X15_dates_locations_and_closures kb0 extractor0 self :
  FactMatcher_init kb0 extractor0 = Ok self →
  date_properties self ## location_properties self
  ∧ ∀ p, p ≠ kb_get "P69" →
         (is_Some (closure_properties self !! p) ↔ p ∈ location_properties self).
Proof.
  intros Hinit. split.
  - destruct (FactMatcher_init_sets _ _ _ Hinit) as (_ & Hd & Hl).
    intros p [_ Hdate]%Hd [_ [Hloc _]]%Hl.
    unfold declared_date in Hdate. by rewrite Hdate in Hloc.
  - intros p Hp. rewrite (FactMatcher_init_closure _ _ _ p Hinit).
    rewrite decide_False by done. case_decide; [naive_solver|].
    split; [by intros [? ?]|done].
Qed.

(** X16: the constructor returns a matcher exactly when every role value
    of /w/entity is a frame whose constraint (P2302) values are all
    frames; a number or a string in either place makes it fail. *)
Theorem X16_constructor_succeeds_iff kb0 extractor0 :
  (∃ self, FactMatcher_init kb0 extractor0 = Ok self)
  ↔ Forall (readable_property kb0) (role_values kb0).
Proof.
  unfold FactMatcher_init. fold (role_values kb0). split.
  - intros [self Hself].
    destruct (collect_properties _ _ _) as [[[unique dates] locations]|e] eqn:Hsets;
      cbn [mbind result_bind rbind mret result_ret] in Hself; [|done].
    by apply collect_properties_Ok in Hsets as [Hall _].
  - intros Hall.
    destruct (collect_properties_readable kb0 _ (∅, ∅, ∅) Hall)
      as [[[unique dates] locations] ->].
    cbn [mbind result_bind rbind mret result_ret]. by eexists.
Qed.

Lemma X14_property_sets_of_the_constructor_witness :
  declared_unique sample_kb "P26"
  ∧ declared_date sample_kb "P569"
  ∧ declared_location sample_kb "P19"
  ∧ "P106" ∉ unique_properties sample_matcher.
Proof.
  destruct (X14_property_sets_of_the_constructor sample_kb sample_extractor
    sample_matcher sample_matcher_init) as (Hu & Hd & Hl).
  split_and!.
  - apply Hu. by_compute.
  - apply Hd. by_compute.
  - apply Hl. by_compute.
  - by_compute.
Defined.

Lemma X15_dates_locations_and_closures_witness :
  date_properties sample_matcher ## location_properties sample_matcher
  ∧ is_Some (closure_properties sample_matcher !! "P19")
  ∧ ¬ is_Some (closure_properties sample_matcher !! "P106").
Proof.
  destruct (X15_dates_locations_and_closures sample_kb sample_extractor
    sample_matcher sample_matcher_init) as [Hdisjoint Hclosure].
  split_and!; [exact Hdisjoint| |].
  - apply Hclosure; by_compute.
  - rewrite Hclosure; by_compute.
Defined.

Lemma X16_constructor_succeeds_iff_witness :
  (∃ self, FactMatcher_init sample_kb sample_extractor = Ok self)
  ∧ ¬ (∃ self, FactMatcher_init sample_kb_unreadable sample_extractor = Ok self).
Proof.
  split.
  - apply X16_constructor_succeeds_iff.
    repeat (constructor; [eexists; split; [reflexivity|];
                          vm_compute; repeat constructor; by eexists|]).
    constructor.
  - rewrite X16_constructor_succeeds_iff.
    intros Hall. apply Forall_cons in Hall as [_ Hall].
    apply Forall_cons in Hall as [(p & Hp & _) _]. discriminate Hp.
Defined.

(** ** More on the date comparator and the classifier *)

(** X17: on dates whose granules start on a multiple of their length (a
    decade on a multiple of 10, a century of 100, a millennium of 1000),
    [_finer_date] is transitive. *)
Theorem X17_finer_date_transitive_on_aligned_dates a b c :
  aligned b → aligned c →
  _finer_date a b = true → _finer_date b c = true → _finer_date a c = true.
Proof. apply finer_date_trans_aligned. Qed.

Lemma X17_finer_date_transitive_on_aligned_dates_witness :
  _finer_date (mkDate 1995 3 0 MONTH) (mkDate 1900 0 0 CENTURY) = true.
Proof.
  apply (X17_finer_date_transitive_on_aligned_dates (mkDate 1995 3 0 MONTH)
    (mkDate 1990 0 0 DECADE) (mkDate 1900 0 0 CENTURY)).
  - by exists 199%Z.
  - by exists 19%Z.
  - reflexivity.
  - reflexivity.
Defined.

Lemma existsb_pointwise {A} (f g : A → bool) (l : list A) :
  (∀ x, f x = g x) → existsb f l = existsb g l.
Proof.
  intros Hfg. induction l as [|x l IH]; [done|]. cbn. by rewrite Hfg, IH.
Qed.

Section ClassifierReadings.

Context (sling_Date : value → Date) (Date_value : Date → value).

(** X18: what a match type says about the existing facts: NEW is returned
    only when there are none; EXACT only when there are some and the
    proposed frame is among them or, for a date-valued property, has the
    scalar of one of them; SUBSUMES_EXISTING only when the two rules
    before it fail and its own applies; SUBSUMED_BY_EXISTING only when
    the three rules before it fail and its own applies. *)
Theorem X18_match_type_tells_the_rule self item prop v facts :
  _existing_facts self item (prop_list prop) false = Ok facts →
  let r := for_item sling_Date Date_value self item prop (Frame v) in
  let path := prop_list prop in
  (r = Ok NEW ↔ facts = [])
  ∧ (r = Ok EXACT
     ↔ facts ≠ [] ∧ rule_EXACT sling_Date Date_value self path v facts)
  ∧ (r = Ok SUBSUMES_EXISTING
     ↔ facts ≠ [] ∧ ¬ rule_EXACT sling_Date Date_value self path v facts
       ∧ rule_SUBSUMES sling_Date self path v facts)
  ∧ (r = Ok SUBSUMED_BY_EXISTING
     ↔ facts ≠ [] ∧ ¬ rule_EXACT sling_Date Date_value self path v facts
       ∧ ¬ rule_SUBSUMES sling_Date self path v facts
       ∧ rule_SUBSUMED sling_Date self path v facts).
Proof.
  intros Hfacts r path. subst r path.
  pose proof (for_item_rules sling_Date Date_value self item prop v facts Hfacts)
    as H. cbn zeta in H. unfold rule_NEW in H.
  split_and!; (split; [intros Hr; rewrite Hr in H|]); naive_solver.
Qed.

(** X19: for a path that ends in a property that is not date-valued, the
    classifier makes no use of dates: whatever the reading of dates and
    their scalars, the answer is the same. *)
Theorem X19_no_dates_for_other_properties sling_Date' Date_value' self item prop value :
  terminal_property (prop_list prop) ∉ date_properties self →
  for_item sling_Date Date_value self item prop value
  = for_item sling_Date' Date_value' self item prop value.
Proof.
  intros Hdate. unfold for_item, _date_valued.
  destruct value as [v| |]; [|done|done].
  destruct (_existing_facts self item (prop_list prop) false) as [facts|e];
    cbn [mbind result_bind rbind]; [|done].
  by rewrite !(bool_decide_eq_false_2 _ Hdate).
Qed.

(** X20: of the extractor the classifier uses one answer of [facts_for],
    the one for the item and the first property of the path without
    closure backoff, and [in_closure]: with an extractor that agrees on
    that answer and on [in_closure] the match type is the same, whatever
    its [facts_for] yields for other items, for other properties or with
    closure backoff. *)
Theorem X20_extractor_queries_of_for_item self item prop value other :
  facts_for other item [first_property (prop_list prop)] false
  = facts_for (extractor self) item [first_property (prop_list prop)] false →
  (∀ property coarse fine,
     in_closure other property coarse fine
     = in_closure (extractor self) property coarse fine) →
  for_item sling_Date Date_value (with_extractor self other) item prop value
  = for_item sling_Date Date_value self item prop value.
Proof.
  intros Hfacts Hclosure. unfold for_item.
  destruct value as [v| |]; [|done|done].
  assert (_existing_facts (with_extractor self other) item (prop_list prop) false
          = _existing_facts self item (prop_list prop) false) as ->.
  { unfold _existing_facts. destruct (prop_list prop) as [|pid path]; [done|].
    cbn [with_extractor extractor first_property hd] in *.
    by rewrite Hfacts. }
  assert (∀ property coarse fine,
            subsumes (with_extractor self other) property coarse fine
            = subsumes self property coarse fine) as Hsubsumes.
  { intros property coarse fine. unfold subsumes.
    cbn [with_extractor kb extractor closure_properties p_subclass p_parent_org].
    case_bool_decide; [done|].
    destruct (closure_properties self !! property); by rewrite !Hclosure. }
  destruct (_existing_facts self item (prop_list prop) false) as [facts|e];
    cbn [mbind result_bind rbind]; [|done].
  unfold _date_valued.
  cbn [with_extractor date_properties unique_properties].
  rewrite (existsb_pointwise
    (λ existing, if_Frame existing
       (λ e, subsumes (with_extractor self other)
               (terminal_property (prop_list prop)) v e))
    (λ existing, if_Frame existing
       (λ e, subsumes self (terminal_property (prop_list prop)) v e)))
    by (intros [e| |]; cbn [if_Frame]; by rewrite ?Hsubsumes).
  rewrite (existsb_pointwise
    (λ existing, if_Frame existing
       (λ e, subsumes (with_extractor self other)
               (terminal_property (prop_list prop)) e v))
    (λ existing, if_Frame existing
       (λ e, subsumes self (terminal_property (prop_list prop)) e v)))
    by (intros [e| |]; cbn [if_Frame]; by rewrite ?Hsubsumes).
  done.
Qed.

End ClassifierReadings.

Lemma X18_match_type_tells_the_rule_witness :
  ¬ rule_EXACT sample_Date sample_Date_value sample_matcher [kb_get "P106"]
      "Athlete" [Frame "Cyclist"; Frame "Coach"]
  ∧ rule_SUBSUMES sample_Date sample_matcher [kb_get "P106"] "Athlete"
      [Frame "Cyclist"; Frame "Coach"].
Proof.
  destruct (X18_match_type_tells_the_rule sample_Date sample_Date_value
    sample_matcher "Ann" (Single "P106") "Athlete" [Frame "Cyclist"; Frame "Coach"])
    as (_ & _ & Hsubsumes & _); [vm_compute; reflexivity|].
  apply Hsubsumes. vm_compute. reflexivity.
Defined.

Lemma X19_no_dates_for_other_properties_witness :
  for_item sample_Date sample_Date_value sample_matcher "Ann" (Single "P106")
    (Frame "Athlete")
  = for_item sample_Date_blind sample_Date_value sample_matcher "Ann"
      (Single "P106") (Frame "Athlete").
Proof.
  apply (X19_no_dates_for_other_properties sample_Date sample_Date_value
    sample_Date_blind sample_Date_value sample_matcher "Ann" (Single "P106")
    (Frame "Athlete")).
  by_compute.
Defined.

Lemma X20_extractor_queries_of_for_item_witness :
  for_item sample_Date sample_Date_value
    (with_extractor sample_matcher sample_extractor_no_backoff) "Ann"
    (Single "P19") (Frame "Q142")
  = for_item sample_Date sample_Date_value sample_matcher "Ann" (Single "P19")
      (Frame "Q142").
Proof.
  apply (X20_extractor_queries_of_for_item sample_Date sample_Date_value
    sample_matcher "Ann" (Single "P19") (Frame "Q142")
    sample_extractor_no_backoff).
  - vm_compute. reflexivity.
  - intros property coarse fine. reflexivity.
Defined.
